(** * Query Processing Agent (qp_agent.py): model and verified properties

    A shallow embedding of [QueryProcessingAgent] from
    [src/db/Pilot Codes_Shangde/qp_agent.py]: query parsing, ontology
    activation, knowledge-base ranking and the assembly of the analysis
    specification, followed by the properties proved about them.

    Modelling conventions.
    - Python [str] is [string]; the text is taken to be ASCII, so [lower]
      and [strip] are the ASCII restrictions of [str.lower] and [str.strip].
    - Python [int] is [Z].
    - A [dict] read with [.get(key, default)] is a record whose field is an
      [option]: [None] is the missing key.
    - Code that can raise returns [result]; [try]/[except Exception] is
      [try_except].
    - The calls that leave the repository (the chat client, [json.loads],
      [json.dumps], the clock) are arguments of the functions that use them. *)

From Stdlib Require Import String Ascii List ZArith Lia Bool Arith Permutation Sorted.
Import ListNotations.
Open Scope string_scope.
Open Scope Z_scope.

(* ================================================================== *)
(** ** Python string operations used by the agent *)

Module PyStr.

Definition newline : string := String (ascii_of_nat 10) EmptyString.
Definition dquote : string := String (ascii_of_nat 34) EmptyString.

(** [c.lower()] on one ASCII character. *)
Definition lower_ascii (c : ascii) : ascii :=
  let n := nat_of_ascii c in
  if (Nat.leb 65 n && Nat.leb n 90)%bool then ascii_of_nat (n + 32) else c.

(** [s.lower()] *)
Fixpoint lower (s : string) : string :=
  match s with
  | EmptyString => EmptyString
  | String c s' => String (lower_ascii c) (lower s')
  end.

(** [s.startswith(p)] *)
Definition startswith (s p : string) : bool := String.prefix p s.

(** [needle in hay] *)
Fixpoint contains (needle hay : string) : bool :=
  (String.prefix needle hay
   || match hay with
      | EmptyString => false
      | String _ hay' => contains needle hay'
      end)%bool.

(** The ASCII characters [str.isspace] accepts: tab, line feed, vertical
    tab, form feed, carriage return, the four separators 28-31, space. *)
Definition is_space (c : ascii) : bool :=
  let n := nat_of_ascii c in
  ((Nat.leb 9 n && Nat.leb n 13) || (Nat.leb 28 n && Nat.leb n 32))%bool.

Fixpoint lstrip (s : string) : string :=
  match s with
  | EmptyString => EmptyString
  | String c s' => if is_space c then lstrip s' else s
  end.

Fixpoint rstrip (s : string) : string :=
  match s with
  | EmptyString => EmptyString
  | String c s' =>
      match rstrip s' with
      | EmptyString => if is_space c then EmptyString else String c EmptyString
      | r => String c r
      end
  end.

(** [s.strip()] *)
Definition strip (s : string) : string := rstrip (lstrip s).

(** [s.split(sep)] for a non-empty [sep] (every call site passes a
    non-empty literal): the pieces between the non-overlapping occurrences
    of [sep], found left to right.  [skip] counts the characters of a
    matched separator still to be passed over; [cur] is the piece being
    read. *)
Fixpoint split_go (sep : string) (skip : nat) (cur : string) (s : string)
  : list string :=
  match s with
  | EmptyString => [cur]
  | String c s' =>
      match skip with
      | S k => split_go sep k cur s'
      | O =>
          if String.prefix sep s
          then cur :: split_go sep (Nat.pred (String.length sep)) EmptyString s'
          else split_go sep O (cur ++ String c EmptyString) s'
      end
  end.

Definition split (s sep : string) : list string := split_go sep O EmptyString s.

(** [sep.join(l)] *)
Fixpoint join (sep : string) (l : list string) : string :=
  match l with
  | [] => EmptyString
  | [x] => x
  | x :: l' => x ++ sep ++ join sep l'
  end.

End PyStr.
Import PyStr.

(* ================================================================== *)
(** ** Exceptions *)

Inductive exn : Type :=
| IndexError
| AttributeError
| KeyError
| JSONDecodeError
| ClientError (msg : string).

Inductive result (A : Type) : Type :=
| Return (a : A)
| Raise (e : exn).
Arguments Return {A} a.
Arguments Raise {A} e.

Definition bind {A B : Type} (m : result A) (k : A -> result B) : result B :=
  match m with
  | Return a => k a
  | Raise e => Raise e
  end.

Notation "x <- m ;; k" := (bind m (fun x => k))
  (at level 61, m at next level, right associativity).

(** [try: body  except Exception as e: handler(e)] *)
Definition try_except {A : Type} (body : result A) (handler : exn -> result A)
  : result A :=
  match body with
  | Return a => Return a
  | Raise e => handler e
  end.

(** [for x in xs: st = step(st, x)] where [step] may raise. *)
Fixpoint for_each {S X : Type} (step : S -> X -> result S) (xs : list X) (st : S)
  : result S :=
  match xs with
  | [] => Return st
  | x :: xs' => st' <- step st x ;; for_each step xs' st'
  end.

(** [l[i]] for [i >= 0] *)
Definition item {A : Type} (l : list A) (i : nat) : result A :=
  match nth_error l i with
  | Some a => Return a
  | None => Raise IndexError
  end.

(* ================================================================== *)
(** ** Data model *)

(** [dataset['semantic_context']] *)
Record SemanticContext : Type := {
  represents : option string;
  domain : option string
}.

(** [dataset['spatial_context']], the key the agent reads. *)
Record SpatialContext : Type := {
  geometry_type : option string
}.

(** One entry of [knowledge_base['datasets']], the keys the agent reads. *)
Record Dataset : Type := {
  file_name : string;
  file_path : string;
  data_type : string;
  semantic_context : option SemanticContext;
  spatial_context : option SpatialContext;
  capable_tasks : option (list string)
}.

(** The dict [_parse_query] returns. *)
Record ParsedIntent : Type := {
  original_query : string;
  concepts : list string;
  entities : list string;
  filters : list string;
  spatial_relationships : list string;
  intent : string
}.

(** One element of the list [_search_knowledge_base] returns. *)
Record RankedDataset : Type := {
  dataset : Dataset;
  relevance_score : Z;
  reasons : list string
}.

(** [d.get(key, default)] *)
Definition get {A : Type} (field : option A) (default : A) : A :=
  match field with
  | Some a => a
  | None => default
  end.

(* ================================================================== *)
(** ** [_search_knowledge_base] (qp_agent.py 233-294) *)

(** The loop state of one dataset: [relevance_score] and [reasons]. *)
Definition Scoring : Type := (Z * list string)%type.

(** [relevance_score += n; reasons.append(reason)] *)
Definition contribute (n : Z) (reason : string) (st : Scoring) : Scoring :=
  (fst st + n, (snd st ++ [reason])%list).

(** Lines 252-255. *)
Definition concept_step (domain_l represents_l : string) (st : Scoring)
  (concept : string) : Scoring :=
  if (contains concept domain_l || contains concept represents_l)%bool
  then contribute 2 ("Matches concept: " ++ concept) st
  else st.

(** Lines 258-261. *)
Definition entity_step (represents_l : string) (st : Scoring) (entity : string)
  : Scoring :=
  if contains entity represents_l
  then contribute 2 ("Contains entity: " ++ entity) st
  else st.

(** Lines 267-273. *)
Definition geometry_step (geometry : string) (st : Scoring) (entity : string)
  : Scoring :=
  if ((contains "parcel" entity || contains "building" entity)
      && contains "polygon" geometry)%bool
  then contribute 1 "Geometry matches entity type" st
  else if ((contains "transit" entity || contains "stop" entity)
           && contains "point" geometry)%bool
  then contribute 1 "Geometry matches entity type" st
  else st.

(** Lines 277-281; [any(concept in task_lower for concept in concepts)]. *)
Definition task_step (concepts_l : list string) (st : Scoring) (task : string)
  : Scoring :=
  let task_lower := lower task in
  if existsb (fun concept => contains concept task_lower) concepts_l
  then contribute 1 ("Capable of related task: " ++ task) st
  else st.

(** Lines 243-273: the state after the semantic and the geometry loops. *)
Definition score_semantic_geometry (concepts_l entities_l : list string)
  (d : Dataset) : Scoring :=
  let st : Scoring := (0, []) in
  let semantic := get (semantic_context d) {| represents := None; domain := None |} in
  let represents_l := lower (get (represents semantic) "") in
  let domain_l := lower (get (domain semantic) "") in
  let st := fold_left (concept_step domain_l represents_l) concepts_l st in
  let st := fold_left (entity_step represents_l) entities_l st in
  let spatial_ctx := get (spatial_context d) {| geometry_type := None |} in
  let geometry := lower (get (geometry_type spatial_ctx) "") in
  fold_left (geometry_step geometry) entities_l st.

(** Lines 243-281: the body of the loop over the datasets, up to the test. *)
Definition score_dataset (concepts_l entities_l : list string) (d : Dataset)
  : Scoring :=
  let st := score_semantic_geometry concepts_l entities_l d in
  let tasks := get (capable_tasks d) [] in
  fold_left (task_step concepts_l) tasks st.

(** Lines 284-289. *)
Definition dataset_step (concepts_l entities_l : list string)
  (relevant_datasets : list RankedDataset) (d : Dataset) : list RankedDataset :=
  let st := score_dataset concepts_l entities_l d in
  if 0 <? fst st
  then (relevant_datasets
          ++ [{| dataset := d; relevance_score := fst st; reasons := snd st |}])%list
  else relevant_datasets.

(** [list.sort(key=..., reverse=True)]: Python's sort is stable, also under
    [reverse=True].  [insert_desc x l] puts [x] in front of the first element
    whose key does not exceed the key of [x]. *)
Fixpoint insert_desc (x : RankedDataset) (l : list RankedDataset)
  : list RankedDataset :=
  match l with
  | [] => [x]
  | y :: l' =>
      if relevance_score x <? relevance_score y
      then y :: insert_desc x l'
      else x :: l
  end.

Definition sort_desc (l : list RankedDataset) : list RankedDataset :=
  fold_right insert_desc [] l.

(** Line 240 lower-cases the intent into a local that is never read; it has
    no counterpart here. *)
Definition _search_knowledge_base (kb : list Dataset) (parsed_query : ParsedIntent)
  : list RankedDataset :=
  let concepts_l := map lower (concepts parsed_query) in
  let entities_l := map lower (entities parsed_query) in
  let relevant_datasets := fold_left (dataset_step concepts_l entities_l) kb [] in
  sort_desc relevant_datasets.

(** The score and reasons [_search_knowledge_base] computes for one dataset,
    and the entry it appends when the score is positive. *)
Definition score_of (parsed_query : ParsedIntent) (d : Dataset) : Scoring :=
  score_dataset (map lower (concepts parsed_query))
    (map lower (entities parsed_query)) d.

Definition ranked (parsed_query : ParsedIntent) (d : Dataset) : RankedDataset :=
  {| dataset := d;
     relevance_score := fst (score_of parsed_query d);
     reasons := snd (score_of parsed_query d) |}.

(** The capable tasks of a dataset that earn a point: those of which some
    concept is a substring, both sides lower-cased. *)
Definition matching_tasks (parsed_query : ParsedIntent) (d : Dataset)
  : list string :=
  filter
    (fun task =>
       existsb (fun concept => contains (lower concept) (lower task))
         (concepts parsed_query))
    (get (capable_tasks d) []).

(** The order the output is sorted in. *)
Definition score_ge (a b : RankedDataset) : Prop :=
  relevance_score b <= relevance_score a.

(* ================================================================== *)
(** ** [_parse_query] (qp_agent.py 84-147) *)

(** The f-string of lines 87-103. *)
Definition parse_prompt (query : string) : string :=
  join newline
    [ "Parse this urban planning query and extract key components:";
      "";
      "Query: " ++ dquote ++ query ++ dquote;
      "";
      "Extract:";
      "1. Planning concepts (e.g., density, accessibility, land use)";
      "2. Urban entities (e.g., parcels, census tracts, transit stops)";
      "3. Filters/constraints (e.g., residential only, high-income areas)";
      "4. Spatial relationships (e.g., near, within, adjacent to)";
      "5. Analysis intent (what they want to know/calculate)";
      "";
      "Format your response as:";
      "CONCEPTS: concept1, concept2, concept3";
      "ENTITIES: entity1, entity2";
      "FILTERS: filter1, filter2";
      "SPATIAL: relationship";
      "INTENT: <one sentence describing what they want>" ].

(** Lines 114-121. *)
Definition initial_parsed (query : string) : ParsedIntent :=
  {| original_query := query;
     concepts := [];
     entities := [];
     filters := [];
     spatial_relationships := [];
     intent := "" |}.

(** Lines 140-147. *)
Definition degraded_parsed (query : string) : ParsedIntent :=
  {| original_query := query;
     concepts := [];
     entities := [];
     filters := [];
     spatial_relationships := [];
     intent := query |}.

Definition set_concepts (p : ParsedIntent) (v : list string) : ParsedIntent :=
  {| original_query := original_query p; concepts := v; entities := entities p;
     filters := filters p; spatial_relationships := spatial_relationships p;
     intent := intent p |}.

Definition set_entities (p : ParsedIntent) (v : list string) : ParsedIntent :=
  {| original_query := original_query p; concepts := concepts p; entities := v;
     filters := filters p; spatial_relationships := spatial_relationships p;
     intent := intent p |}.

Definition set_filters (p : ParsedIntent) (v : list string) : ParsedIntent :=
  {| original_query := original_query p; concepts := concepts p;
     entities := entities p; filters := v;
     spatial_relationships := spatial_relationships p; intent := intent p |}.

Definition set_spatial_relationships (p : ParsedIntent) (v : list string)
  : ParsedIntent :=
  {| original_query := original_query p; concepts := concepts p;
     entities := entities p; filters := filters p; spatial_relationships := v;
     intent := intent p |}.

Definition set_intent (p : ParsedIntent) (v : string) : ParsedIntent :=
  {| original_query := original_query p; concepts := concepts p;
     entities := entities p; filters := filters p;
     spatial_relationships := spatial_relationships p; intent := v |}.

(** [line.split(marker)[1]] *)
Definition after_marker (line marker : string) : result string :=
  item (split line marker) 1.

(** Lines 124-134: one iteration of the loop over the response lines. *)
Definition parse_line (parsed : ParsedIntent) (raw_line : string)
  : result ParsedIntent :=
  let line := strip raw_line in
  if startswith line "CONCEPTS:" then
    rest <- after_marker line "CONCEPTS:" ;;
    Return (set_concepts parsed (map strip (split rest ",")))
  else if startswith line "ENTITIES:" then
    rest <- after_marker line "ENTITIES:" ;;
    Return (set_entities parsed (map strip (split rest ",")))
  else if startswith line "FILTERS:" then
    rest <- after_marker line "FILTERS:" ;;
    Return (set_filters parsed (map strip (split rest ",")))
  else if startswith line "SPATIAL:" then
    rest <- after_marker line "SPATIAL:" ;;
    Return (set_spatial_relationships parsed [strip rest])
  else if startswith line "INTENT:" then
    rest <- after_marker line "INTENT:" ;;
    Return (set_intent parsed (strip rest))
  else Return parsed.

(** Lines 111-136: the body of the [try], from the response text on. *)
Definition parse_response (query content : string) : result ParsedIntent :=
  for_each parse_line (split content newline) (initial_parsed query).

(** [chat prompt] is the outcome of
    [ollama.chat(model=..., messages=[...])['message']['content']]:
    the response text, or the exception the call or the look-up raised. *)
Definition _parse_query (chat : string -> result string) (query : string)
  : result ParsedIntent :=
  let prompt := parse_prompt query in
  try_except
    (content <- chat prompt ;; parse_response query content)
    (fun _ => Return (degraded_parsed query)).

(* ================================================================== *)
(** ** The ontology and [_activate_ontology] (qp_agent.py 149-231) *)

(** The rdflib graph: triples of node texts ([str] of a URI or literal).
    The rows of a query come in the order of the list; rdflib fixes none. *)
Definition Triple : Type := (string * string * string)%type.
Definition Graph : Type := list Triple.

Definition RDF_type : string := "http://www.w3.org/1999/02/22-rdf-syntax-ns#type".
Definition RDFS_label : string := "http://www.w3.org/2000/01/rdf-schema#label".
Definition onto : string := "http://urbanplanning.org/ontology#".

(** [SELECT ?term ?label WHERE { ?term a :term_type . ?term rdfs:label ?label }] *)
Definition select_term_label (g : Graph) (term_type : string)
  : list (string * string) :=
  flat_map
    (fun t1 : Triple =>
       let '(term, p1, o1) := t1 in
       if (String.eqb p1 RDF_type && String.eqb o1 (onto ++ term_type))%bool
       then flat_map
              (fun t2 : Triple =>
                 let '(s2, p2, label) := t2 in
                 if (String.eqb s2 term && String.eqb p2 RDFS_label)%bool
                 then [(term, label)] else [])
              g
       else [])
    g.

(** [SELECT ?relation ?target WHERE { <uri> ?relation ?target }] *)
Definition select_relation_target (g : Graph) (uri : string)
  : list (string * string) :=
  flat_map
    (fun t : Triple =>
       let '(s, relation, target) := t in
       if String.eqb s uri then [(relation, target)] else [])
    g.

(** [SELECT ?method WHERE { ?method a :AnalysisMethod . ?method :appliesTo <uri> }] *)
Definition select_method (g : Graph) (uri : string) : list string :=
  flat_map
    (fun t1 : Triple =>
       let '(method, p1, o1) := t1 in
       if (String.eqb p1 RDF_type && String.eqb o1 (onto ++ "AnalysisMethod"))%bool
       then flat_map
              (fun t2 : Triple =>
                 let '(s2, p2, o2) := t2 in
                 if (String.eqb s2 method && String.eqb p2 (onto ++ "appliesTo")
                     && String.eqb o2 uri)%bool
                 then [method] else [])
              g
       else [])
    g.

(** Lines 208-231. *)
Definition _fuzzy_match_ontology_term (g : Graph) (term term_type : string)
  : list string :=
  let term_lower := lower term in
  fold_left
    (fun matches (row : string * string) =>
       let label := lower (snd row) in
       if (contains term_lower label || contains label term_lower)%bool
       then (matches ++ [fst row])%list
       else matches)
    (select_term_label g term_type) [].

Record Relationship : Type := {
  subject : string;
  predicate : string;
  object : string
}.

(** The dict [_activate_ontology] builds. *)
Record ActivatedContext : Type := {
  relevant_concepts : list string;
  relevant_entities : list string;
  relevant_methods : list string;
  relationships : list Relationship
}.

(** [x in l] on a list of strings. *)
Definition mem (x : string) (l : list string) : bool :=
  existsb (String.eqb x) l.

(** [str(row.method).split('#')[-1]]; [split] never returns the empty list,
    so the default is not reached. *)
Definition local_name (uri : string) : string :=
  last (split uri "#") EmptyString.

(** Lines 163-165. *)
Definition concept_match_step (g : Graph) (ctx : ActivatedContext)
  (concept : string) : ActivatedContext :=
  let concept_matches := _fuzzy_match_ontology_term g concept "PlanningConcept" in
  {| relevant_concepts := (relevant_concepts ctx ++ concept_matches)%list;
     relevant_entities := relevant_entities ctx;
     relevant_methods := relevant_methods ctx;
     relationships := relationships ctx |}.

(** Lines 168-170. *)
Definition entity_match_step (g : Graph) (ctx : ActivatedContext)
  (entity : string) : ActivatedContext :=
  let entity_matches := _fuzzy_match_ontology_term g entity "UrbanEntity" in
  {| relevant_concepts := relevant_concepts ctx;
     relevant_entities := (relevant_entities ctx ++ entity_matches)%list;
     relevant_methods := relevant_methods ctx;
     relationships := relationships ctx |}.

(** Lines 183-188: one row of the relation query. *)
Definition relationship_row_step (concept_uri : string)
  (rels : list Relationship) (row : string * string) : list Relationship :=
  (rels ++ [{| subject := concept_uri; predicate := fst row; object := snd row |}])%list.

(** Lines 173-188. *)
Definition relationship_step (g : Graph) (rels : list Relationship)
  (concept_uri : string) : list Relationship :=
  fold_left (relationship_row_step concept_uri)
    (select_relation_target g concept_uri) rels.

(** Lines 201-204: one row of the method query. *)
Definition method_row_step (methods : list string) (row : string) : list string :=
  let method_name := local_name row in
  if negb (mem method_name methods)
  then (methods ++ [method_name])%list
  else methods.

(** Lines 191-204. *)
Definition method_step (g : Graph) (methods : list string) (entity_uri : string)
  : list string :=
  fold_left method_row_step (select_method g entity_uri) methods.

Definition _activate_ontology (g : Graph) (parsed_query : ParsedIntent)
  : ActivatedContext :=
  let activated_context :=
    {| relevant_concepts := []; relevant_entities := [];
       relevant_methods := []; relationships := [] |} in
  let activated_context :=
    fold_left (concept_match_step g) (concepts parsed_query) activated_context in
  let activated_context :=
    fold_left (entity_match_step g) (entities parsed_query) activated_context in
  let rels :=
    fold_left (relationship_step g) (relevant_concepts activated_context)
      (relationships activated_context) in
  let methods :=
    fold_left (method_step g) (relevant_entities activated_context)
      (relevant_methods activated_context) in
  {| relevant_concepts := relevant_concepts activated_context;
     relevant_entities := relevant_entities activated_context;
     relevant_methods := methods;
     relationships := rels |}.

(* ================================================================== *)
(** ** [_generate_analysis_spec] (qp_agent.py 296-406) *)

(** What [json.loads] returns. *)
#[local] Set Warnings "-register-all".
Inductive json : Type :=
| JNull
| JBool (b : bool)
| JInt (n : Z)
| JFloat (literal : string)
| JStr (s : string)
| JList (l : list json)
| JDict (items : list (string * json)).

(** [d[key]] on the items of a dict, [None] for a missing key. *)
Fixpoint lookup (key : string) (items : list (string * json)) : option json :=
  match items with
  | [] => None
  | (k, v) :: items' => if String.eqb k key then Some v else lookup key items'
  end.

(** [w.get(key, default)]: only a dict has the method. *)
Definition dict_get (w : json) (key : string) (default : json) : result json :=
  match w with
  | JDict items => Return (get (lookup key items) default)
  | _ => Raise AttributeError
  end.

(** [v == s] for a decoded value [v] and a [str] [s]. *)
Definition eq_str (v : json) (s : string) : bool :=
  match v with
  | JStr t => String.eqb t s
  | _ => false
  end.

(** An element of [context['available_datasets']], lines 312-317. *)
Record AvailableDataset : Type := {
  name : string;
  type : string;
  relevance : Z;
  top_reasons : list string
}.

(** An element of [analysis_spec['required_data']], lines 388-394. *)
Record RequiredData : Type := {
  required_dataset : string;
  required_file_path : string;
  availability : string;
  required_relevance_score : Z;
  why_relevant : list string
}.

(** [analysis_spec['ontology_context']], lines 382-386. *)
Record OntologySummary : Type := {
  summary_concepts : list string;
  summary_entities : list string;
  summary_methods : list string
}.

(** [analysis_spec['sufficiency_check']], lines 398-403. *)
Record SufficiencyCheck : Type := {
  can_complete : bool;
  status : json;
  missing_data : json;
  alternatives : json
}.

(** The dict [_generate_analysis_spec] returns. *)
Record AnalysisSpecification : Type := {
  timestamp : string;
  query : string;
  parsed_query : ParsedIntent;
  ontology_context : OntologySummary;
  required_data : list RequiredData;
  analysis_workflow : json;
  sufficiency_check : SufficiencyCheck
}.

(** Lines 370-375. *)
Definition fallback_workflow : json :=
  JDict [ ("steps", JList []);
          ("data_sufficiency", JStr "unknown");
          ("missing_data", JList []);
          ("alternatives", JStr "Manual workflow design needed") ].

Definition fence_json : string := "```json".
Definition fence : string := "```".

(** Lines 361-364: the text handed to [json.loads]. *)
Definition extract_json (content : string) : result string :=
  if contains fence_json content then
    after <- item (split content fence_json) 1 ;;
    body <- item (split after fence) 0 ;;
    Return (strip body)
  else if contains fence content then
    after <- item (split content fence) 1 ;;
    body <- item (split after fence) 0 ;;
    Return (strip body)
  else Return content.

Definition quoted (s : string) : string := dquote ++ s ++ dquote.

Section Generation.

(** The chat client, as for [_parse_query]. *)
Variable chat : string -> result string.
(** [json.loads]: the decoded value, or the exception. *)
Variable json_loads : string -> result json.
(** [json.dumps(available_datasets, indent=2)] *)
Variable json_dumps : list AvailableDataset -> string.
(** [datetime.now().isoformat()] *)
Variable now : string.

(** Lines 311-319. *)
Definition available_datasets (relevant_data : list RankedDataset)
  : list AvailableDataset :=
  map (fun d =>
         {| name := file_name (dataset d);
            type := data_type (dataset d);
            relevance := relevance_score d;
            top_reasons := firstn 2 (reasons d) |})
      (firstn 5 relevant_data).

(** The f-string of lines 323-350. *)
Definition workflow_prompt (original_query : string)
  (parsed : ParsedIntent) (ctx : ActivatedContext)
  (relevant_data : list RankedDataset) : string :=
  let step_line (n : string) :=
    "    {" ++ quoted "step" ++ ": " ++ n ++ ", " ++ quoted "operation" ++ ": "
    ++ quoted "..." ++ ", " ++ quoted "data_source" ++ ": " ++ quoted "..."
    ++ ", " ++ quoted "method" ++ ": " ++ quoted "..." ++ "}" in
  join newline
    [ "Design a step-by-step analysis workflow for this planning query.";
      "";
      "Query: " ++ original_query;
      "Intent: " ++ intent parsed;
      "";
      "Available datasets:";
      json_dumps (available_datasets relevant_data);
      "";
      "Available analysis methods: " ++ join ", " (relevant_methods ctx);
      "";
      "Generate a detailed analysis workflow with:";
      "1. Specific sequential steps";
      "2. Which dataset to use for each step";
      "3. What operation/method to apply";
      "4. Any data gaps or limitations";
      "";
      "Format as JSON:";
      "{";
      "  " ++ quoted "steps" ++ ": [";
      step_line "1" ++ ",";
      step_line "2";
      "  ],";
      "  " ++ quoted "data_sufficiency" ++ ": "
        ++ quoted "sufficient/partial/insufficient" ++ ",";
      "  " ++ quoted "missing_data" ++ ": [" ++ quoted "..." ++ "],";
      "  " ++ quoted "alternatives" ++ ": " ++ quoted "...";
      "}";
      "";
      "Provide only valid JSON, no additional text." ].

(** Lines 352-375: the [try] and its handler; the value of [workflow]. *)
Definition synthesize_workflow (prompt : string) : result json :=
  try_except
    (response <- chat prompt ;;
     let content := strip response in
     payload <- extract_json content ;;
     json_loads payload)
    (fun _ => Return fallback_workflow).

(** Lines 387-396. *)
Definition required_data_of (relevant_data : list RankedDataset)
  : list RequiredData :=
  map (fun d =>
         {| required_dataset := file_name (dataset d);
            required_file_path := file_path (dataset d);
            availability := "available";
            required_relevance_score := relevance_score d;
            why_relevant := reasons d |})
      (firstn 10 relevant_data).

(** Lines 378-404: the specification built around [workflow]. *)
Definition assemble (original_query : string) (parsed : ParsedIntent)
  (ctx : ActivatedContext) (relevant_data : list RankedDataset)
  (workflow : json) : result AnalysisSpecification :=
  steps <- dict_get workflow "steps" (JList []) ;;
  sufficiency <- dict_get workflow "data_sufficiency" JNull ;;
  status_value <- dict_get workflow "data_sufficiency" (JStr "unknown") ;;
  missing <- dict_get workflow "missing_data" (JList []) ;;
  alt <- dict_get workflow "alternatives" (JStr "") ;;
  Return
    {| timestamp := now;
       query := original_query;
       parsed_query := parsed;
       ontology_context :=
         {| summary_concepts := relevant_concepts ctx;
            summary_entities := relevant_entities ctx;
            summary_methods := relevant_methods ctx |};
       required_data := required_data_of relevant_data;
       analysis_workflow := steps;
       sufficiency_check :=
         {| can_complete := eq_str sufficiency "sufficient";
            status := status_value;
            missing_data := missing;
            alternatives := alt |} |}.

Definition _generate_analysis_spec (original_query : string)
  (parsed : ParsedIntent) (ctx : ActivatedContext)
  (relevant_data : list RankedDataset) : result AnalysisSpecification :=
  let prompt := workflow_prompt original_query parsed ctx relevant_data in
  workflow <- synthesize_workflow prompt ;;
  assemble original_query parsed ctx relevant_data workflow.

End Generation.

(* ================================================================== *)
(** ** Auxiliary notions used in the statements *)

(** The score of a loop state lies between one and two points per reason. *)
Definition bounded (st : Scoring) : Prop :=
  Z.of_nat (length (snd st)) <= fst st <= 2 * Z.of_nat (length (snd st)).

(** The reason string of the capable-task contribution (line 281). *)
Definition task_reason (task : string) : string :=
  "Capable of related task: " ++ task.

(** The dataset of the accessibility scenario: only the three keys the
    scenario names are present in its contexts, and it lists no tasks. *)
Definition scenario_dataset (fname fpath dtype : string) : Dataset :=
  {| file_name := fname;
     file_path := fpath;
     data_type := dtype;
     semantic_context :=
       Some {| represents := Some "activity center boundaries";
               domain := Some "accessibility" |};
     spatial_context := Some {| geometry_type := Some "Polygon" |};
     capable_tasks := None |}.

(** The parsed intent of the accessibility scenario. *)
Definition scenario_intent (fs sp : list string) (it : string) : ParsedIntent :=
  {| original_query := "Find areas with high accessibility to activity centers";
     concepts := ["accessibility"];
     entities := ["activity centers"];
     filters := fs;
     spatial_relationships := sp;
     intent := it |}.

(** The five markers of the response format, without the colon. *)
Definition markers : list string :=
  ["CONCEPTS"; "ENTITIES"; "FILTERS"; "SPATIAL"; "INTENT"].

(** The response text contains one of the markers. *)
Definition has_marker (content : string) : bool :=
  existsb (fun m => contains m content) markers.

(** [needle] occurs in [hay]. *)
Definition occurs (needle hay : string) : Prop :=
  exists a b, hay = a ++ needle ++ b.

(** A client whose call fails, and one that answers every prompt with [text]. *)
Definition failing_chat (e : exn) : string -> result string :=
  fun _ => Raise e.

Definition constant_chat (text : string) : string -> result string :=
  fun _ => Return text.

(** The relationship triples one concept node contributes (lines 183-188). *)
Definition relations_of (g : Graph) (concept_uri : string) : list Relationship :=
  map (fun row : string * string =>
         {| subject := concept_uri; predicate := fst row; object := snd row |})
      (select_relation_target g concept_uri).

(** A small ontology: one planning concept with one relation, two urban
    entities, and one analysis method that applies to both entities. *)
Definition sample_ontology : Graph :=
  [ (onto ++ "Density", RDF_type, onto ++ "PlanningConcept");
    (onto ++ "Density", RDFS_label, "Density");
    (onto ++ "Density", onto ++ "measuredOn", onto ++ "Parcel");
    (onto ++ "Parcel", RDF_type, onto ++ "UrbanEntity");
    (onto ++ "Parcel", RDFS_label, "Parcel");
    (onto ++ "Building", RDF_type, onto ++ "UrbanEntity");
    (onto ++ "Building", RDFS_label, "Building");
    (onto ++ "OverlayAnalysis", RDF_type, onto ++ "AnalysisMethod");
    (onto ++ "OverlayAnalysis", onto ++ "appliesTo", onto ++ "Parcel");
    (onto ++ "OverlayAnalysis", onto ++ "appliesTo", onto ++ "Building") ].

(** Two concepts that both match the node [Density], two entities that share
    the method. *)
Definition sample_intent : ParsedIntent :=
  {| original_query := "Residential density of parcels and buildings";
     concepts := ["density"; "residential density"];
     entities := ["parcels"; "buildings"];
     filters := [];
     spatial_relationships := [];
     intent := "" |}.

(** The backquote, the character the fences are made of. *)
Definition backquote : string := "`".

(** A decoder for the examples: it accepts the empty object and one
    workflow object, and rejects every other text. *)
Definition sample_loads (text : string) : result json :=
  if String.eqb text "{}" then Return (JDict [])
  else if String.eqb text "{sufficient}"
  then Return (JDict [("steps", JList []);
                      ("data_sufficiency", JStr "sufficient")])
  else Raise JSONDecodeError.

Definition sample_dumps (l : list AvailableDataset) : string := "[]".

(** An activated context with nothing in it. *)
Definition empty_context : ActivatedContext :=
  {| relevant_concepts := []; relevant_entities := [];
     relevant_methods := []; relationships := [] |}.

(* ================================================================== *)
(** ** [process_query] (qp_agent.py 45-82) *)

Section Pipeline.

(** The state of the agent set up by [__init__]: the client, the decoder
    and encoder, the clock, the loaded knowledge base and ontology. *)
Variable chat : string -> result string.
Variable json_loads : string -> result json.
Variable json_dumps : list AvailableDataset -> string.
Variable now : string.
Variable knowledge_base : list Dataset.
Variable ontology : Graph.
(** Lines 78-79: writing the specification to [output_file]; the write may
    raise. *)
Variable save : string -> AnalysisSpecification -> result unit.

(** The four steps, the write, and the returned specification; the progress
    messages are left out. *)
Definition process_query (query output_file : string)
  : result AnalysisSpecification :=
  parsed <- _parse_query chat query ;;
  let ctx := _activate_ontology ontology parsed in
  let relevant_data := _search_knowledge_base knowledge_base parsed in
  analysis_spec <-
    _generate_analysis_spec chat json_loads json_dumps now query parsed ctx
      relevant_data ;;
  _ <- save output_file analysis_spec ;;
  Return analysis_spec.

End Pipeline.

(* ================================================================== *)
(** ** Further notions used in the statements *)

(** The fallback sufficiency check: what the specification reports when the
    workflow is the fallback of lines 370-375. *)
Definition fallback_check : SufficiencyCheck :=
  {| can_complete := false;
     status := JStr "unknown";
     missing_data := JList [];
     alternatives := JStr "Manual workflow design needed" |}.

(** A decoded value is an object. *)
Definition is_dict (w : json) : bool :=
  match w with
  | JDict _ => true
  | _ => false
  end.

(** A text that a line of the response format can carry as it is: not
    empty, no surrounding whitespace, no colon, no line break. *)
Definition plain_text (x : string) : bool :=
  (negb (String.eqb x "") && String.eqb (strip x) x
   && negb (contains ":" x) && negb (contains newline x))%bool.

(** An item of a comma-separated marker line: a plain text with no comma. *)
Definition plain_item (x : string) : bool :=
  (plain_text x && negb (contains "," x))%bool.

(** A response in the format the prompt of [_parse_query] asks for. *)
Definition formatted_response (cs es fs : list string) (sp it : string) : string :=
  join newline
    [ "CONCEPTS: " ++ join ", " cs;
      "ENTITIES: " ++ join ", " es;
      "FILTERS: " ++ join ", " fs;
      "SPATIAL: " ++ sp;
      "INTENT: " ++ it ].

(** The bidirectional test of [_fuzzy_match_ontology_term] (line 228). *)
Definition fuzzy_test (term label : string) : bool :=
  (contains (lower term) (lower label) || contains (lower label) (lower term))%bool.

(** A client that is down: every call raises. *)
Definition unavailable (chat : string -> result string) : Prop :=
  forall prompt, exists e, chat prompt = Raise e.

(** A write that succeeds. *)
Definition sample_save (output_file : string) (spec : AnalysisSpecification)
  : result unit :=
  Return tt.

(** Two datasets for the examples: parcels with a task list, and a table
    with no context at all. *)
Definition parcels_dataset : Dataset :=
  {| file_name := "parcels.shp";
     file_path := "data/parcels.shp";
     data_type := "geospatial";
     semantic_context :=
       Some {| represents := Some "Residential parcels";
               domain := Some "Land Use" |};
     spatial_context := Some {| geometry_type := Some "Polygon" |};
     capable_tasks := Some ["Land use classification"; "Density mapping"] |}.

Definition bare_dataset : Dataset :=
  {| file_name := "notes.csv";
     file_path := "data/notes.csv";
     data_type := "tabular";
     semantic_context := None;
     spatial_context := None;
     capable_tasks := None |}.

Definition parcels_intent : ParsedIntent :=
  {| original_query := "Land use of parcels";
     concepts := ["Land use"; "density"];
     entities := ["parcels"];
     filters := [];
     spatial_relationships := [];
     intent := "" |}.

(** The texts [_search_knowledge_base] reads off a dataset (lines 247-249,
    264-265, 276), with the defaults of the missing keys. *)
Definition represents_text (d : Dataset) : string :=
  get (represents (get (semantic_context d) {| represents := None; domain := None |})) "".

Definition domain_text (d : Dataset) : string :=
  get (domain (get (semantic_context d) {| represents := None; domain := None |})) "".

Definition geometry_text (d : Dataset) : string :=
  get (geometry_type (get (spatial_context d) {| geometry_type := None |})) "".

Definition task_list (d : Dataset) : list string := get (capable_tasks d) [].

(** A text that does not start with whitespace. *)
Definition head_not_space (s : string) : Prop :=
  match s with
  | EmptyString => True
  | String c _ => is_space c = false
  end.

(** What every parsed intent of [_parse_query] satisfies for its query. *)
Definition parsed_ok (query : string) (p : ParsedIntent) : Prop :=
  original_query p = query
  /\ (length (spatial_relationships p) <= 1)%nat
  /\ Forall (fun x => strip x = x) (concepts p)
  /\ Forall (fun x => strip x = x) (entities p)
  /\ Forall (fun x => strip x = x) (filters p)
  /\ Forall (fun x => strip x = x) (spatial_relationships p).

(** A decoder that answers every text with an empty list. *)
Definition list_loads (text : string) : result json := Return (JList []).

(** The entry of [required_data] made from one ranked dataset. *)
Definition required_entry (r : RankedDataset) : RequiredData :=
  {| required_dataset := file_name (dataset r);
     required_file_path := file_path (dataset r);
     availability := "available";
     required_relevance_score := relevance_score r;
     why_relevant := reasons r |}.

(** The tests of the four scoring loops, on lower-cased query terms
    (lines 253, 259, 268-271, 279). *)
Definition concept_hit (d : Dataset) (concept : string) : bool :=
  (contains concept (lower (domain_text d))
   || contains concept (lower (represents_text d)))%bool.

Definition entity_hit (d : Dataset) (entity : string) : bool :=
  contains entity (lower (represents_text d)).

Definition geometry_hit (d : Dataset) (entity : string) : bool :=
  ((contains "parcel" entity || contains "building" entity)
   && contains "polygon" (lower (geometry_text d))
   || (contains "transit" entity || contains "stop" entity)
      && contains "point" (lower (geometry_text d)))%bool.

Definition task_hit (concepts_l : list string) (task : string) : bool :=
  existsb (fun concept => contains concept (lower task)) concepts_l.

(** The reason strings of lines 255, 261, 270 and 273. *)
Definition concept_reason (concept : string) : string :=
  "Matches concept: " ++ concept.

Definition entity_reason (entity : string) : string :=
  "Contains entity: " ++ entity.

Definition geometry_reason (entity : string) : string :=
  "Geometry matches entity type".

(** The names of a list in the order of their first occurrence, each once:
    what appending every name that is not yet present leaves. *)
Fixpoint first_occurrences (names : list string) : list string :=
  match names with
  | [] => []
  | n :: names' =>
      n :: filter (fun m => negb (String.eqb m n)) (first_occurrences names')
  end.

(** An ontology with two analysis methods: one applies to both urban
    entities, the other to the second entity only. *)
Definition two_method_ontology : Graph :=
  [ (onto ++ "Parcel", RDF_type, onto ++ "UrbanEntity");
    (onto ++ "Parcel", RDFS_label, "Parcel");
    (onto ++ "Building", RDF_type, onto ++ "UrbanEntity");
    (onto ++ "Building", RDFS_label, "Building");
    (onto ++ "BufferAnalysis", RDF_type, onto ++ "AnalysisMethod");
    (onto ++ "BufferAnalysis", onto ++ "appliesTo", onto ++ "Building");
    (onto ++ "OverlayAnalysis", RDF_type, onto ++ "AnalysisMethod");
    (onto ++ "OverlayAnalysis", onto ++ "appliesTo", onto ++ "Parcel");
    (onto ++ "OverlayAnalysis", onto ++ "appliesTo", onto ++ "Building") ].

(* ================================================================== *)
(** * Properties *)

(** ** The sort *)

Lemma insert_desc_perm (x : RankedDataset) (l : list RankedDataset) :
  Permutation (insert_desc x l) (x :: l).
Proof.
  induction l as [|y l IH]; simpl.
  - apply Permutation_refl.
  - destruct (relevance_score x <? relevance_score y).
    + eapply perm_trans; [apply perm_skip, IH | apply perm_swap].
    + apply Permutation_refl.
Qed.

Lemma sort_desc_perm (l : list RankedDataset) : Permutation (sort_desc l) l.
Proof.
  induction l as [|x l IH]; simpl.
  - constructor.
  - eapply perm_trans; [apply insert_desc_perm | apply perm_skip, IH].
Qed.

Lemma insert_desc_sorted (x : RankedDataset) (l : list RankedDataset) :
  StronglySorted score_ge l -> StronglySorted score_ge (insert_desc x l).
Proof.
  induction 1 as [|y l Hs IH Hall]; simpl.
  - repeat constructor.
  - destruct (relevance_score x <? relevance_score y) eqn:E.
    + constructor; [exact IH|].
      apply Z.ltb_lt in E.
      rewrite Forall_forall in *. intros z Hz.
      apply (Permutation_in _ (insert_desc_perm x l)) in Hz.
      destruct Hz as [<- | Hz]; [unfold score_ge; lia | auto].
    + apply Z.ltb_ge in E.
      constructor; [constructor; assumption|].
      constructor; [exact E|].
      rewrite Forall_forall in *. intros z Hz.
      specialize (Hall z Hz). unfold score_ge in *. lia.
Qed.

Lemma sort_desc_sorted (l : list RankedDataset) :
  StronglySorted score_ge (sort_desc l).
Proof.
  induction l as [|x l IH]; simpl.
  - constructor.
  - apply insert_desc_sorted, IH.
Qed.

(** Insertion never moves an entry across one of equal score. *)
Lemma insert_desc_filter (k : Z) (x : RankedDataset) (l : list RankedDataset) :
  filter (fun r => relevance_score r =? k) (insert_desc x l)
  = filter (fun r => relevance_score r =? k) (x :: l).
Proof.
  induction l as [|y l IH]; [reflexivity|].
  simpl insert_desc.
  destruct (relevance_score x <? relevance_score y) eqn:E; [|reflexivity].
  apply Z.ltb_lt in E.
  change (filter (fun r => relevance_score r =? k) (y :: insert_desc x l))
    with (if relevance_score y =? k
          then y :: filter (fun r => relevance_score r =? k) (insert_desc x l)
          else filter (fun r => relevance_score r =? k) (insert_desc x l)).
  rewrite IH. simpl.
  destruct (relevance_score x =? k) eqn:Ex, (relevance_score y =? k) eqn:Ey;
    try reflexivity.
  apply Z.eqb_eq in Ex, Ey. lia.
Qed.

Lemma sort_desc_stable (k : Z) (l : list RankedDataset) :
  filter (fun r => relevance_score r =? k) (sort_desc l)
  = filter (fun r => relevance_score r =? k) l.
Proof.
  induction l as [|x l IH]; [reflexivity|].
  simpl sort_desc. rewrite insert_desc_filter. simpl. now rewrite IH.
Qed.

(** ** The loop over the knowledge base *)

Lemma dataset_loop (pq : ParsedIntent) (kb : list Dataset)
  (acc : list RankedDataset) :
  fold_left (dataset_step (map lower (concepts pq)) (map lower (entities pq))) kb acc
  = (acc ++ map (ranked pq) (filter (fun d => 0 <? fst (score_of pq d)) kb))%list.
Proof.
  revert acc. induction kb as [|d kb IH]; intros acc; simpl.
  - now rewrite app_nil_r.
  - rewrite IH. unfold dataset_step. fold (score_of pq d).
    destruct (0 <? fst (score_of pq d)); [|reflexivity].
    simpl. now rewrite <- app_assoc.
Qed.

Lemma search_unfold (kb : list Dataset) (pq : ParsedIntent) :
  _search_knowledge_base kb pq
  = sort_desc (map (ranked pq) (filter (fun d => 0 <? fst (score_of pq d)) kb)).
Proof.
  unfold _search_knowledge_base. now rewrite dataset_loop.
Qed.

Lemma search_perm (kb : list Dataset) (pq : ParsedIntent) :
  Permutation (_search_knowledge_base kb pq)
    (map (ranked pq) (filter (fun d => 0 <? fst (score_of pq d)) kb)).
Proof. rewrite search_unfold. apply sort_desc_perm. Qed.

Lemma search_In (kb : list Dataset) (pq : ParsedIntent) (r : RankedDataset) :
  In r (_search_knowledge_base kb pq) <->
  exists d, In d kb /\ 0 < fst (score_of pq d) /\ r = ranked pq d.
Proof.
  split.
  - intros H. apply (Permutation_in _ (search_perm kb pq)) in H.
    apply in_map_iff in H. destruct H as [d [<- Hd]].
    apply filter_In in Hd. destruct Hd as [Hd Hp]. apply Z.ltb_lt in Hp.
    now exists d.
  - intros [d [Hd [Hp ->]]].
    apply (Permutation_in _ (Permutation_sym (search_perm kb pq))).
    apply in_map, filter_In. split; [exact Hd | now apply Z.ltb_lt].
Qed.

(** C1: the ranking returns at most as many entries as the knowledge base
    has datasets, its datasets are exactly (with multiplicity) the datasets
    whose additive score is strictly positive, each with that score, and no
    entry has score zero. *)
Theorem search_returns_exactly_positive (kb : list Dataset) (pq : ParsedIntent) :
  (length (_search_knowledge_base kb pq) <= length kb)%nat
  /\ Permutation (map dataset (_search_knowledge_base kb pq))
       (filter (fun d => 0 <? fst (score_of pq d)) kb)
  /\ (forall d, In d kb ->
        (In d (map dataset (_search_knowledge_base kb pq))
         <-> 0 < fst (score_of pq d)))
  /\ (forall r, In r (_search_knowledge_base kb pq) ->
        relevance_score r = fst (score_of pq (dataset r))
        /\ 0 < relevance_score r).
Proof.
  assert (Hmap : forall l, map dataset (map (ranked pq) l) = l).
  { intros l. rewrite map_map. simpl. apply map_id. }
  assert (Hperm : Permutation (map dataset (_search_knowledge_base kb pq))
                    (filter (fun d => 0 <? fst (score_of pq d)) kb)).
  { rewrite <- (Hmap (filter _ kb)). apply Permutation_map, search_perm. }
  split; [|split; [exact Hperm | split]].
  - rewrite (Permutation_length (search_perm kb pq)), length_map.
    apply filter_length_le.
  - intros d Hd. split.
    + intros H. apply (Permutation_in _ Hperm) in H.
      apply filter_In in H. now apply Z.ltb_lt.
    + intros H. apply (Permutation_in _ (Permutation_sym Hperm)).
      apply filter_In. split; [exact Hd | now apply Z.ltb_lt].
  - intros r Hr. apply search_In in Hr. destruct Hr as [d [_ [Hp ->]]].
    simpl. split; [reflexivity | exact Hp].
Qed.

(** C4: the output is sorted by descending [relevance_score], and for every
    score value the entries with that score come in the order the knowledge
    base lists their datasets. *)
Theorem search_sorted_and_stable (kb : list Dataset) (pq : ParsedIntent) :
  StronglySorted score_ge (_search_knowledge_base kb pq)
  /\ forall k : Z,
       filter (fun r => relevance_score r =? k) (_search_knowledge_base kb pq)
       = map (ranked pq)
           (filter (fun d => (0 <? fst (score_of pq d))
                             && (fst (score_of pq d) =? k))%bool kb).
Proof.
  split.
  - rewrite search_unfold. apply sort_desc_sorted.
  - intros k. rewrite search_unfold, sort_desc_stable.
    induction kb as [|d kb IH]; [reflexivity|].
    simpl. destruct (0 <? fst (score_of pq d)); simpl; [|exact IH].
    destruct (fst (score_of pq d) =? k); simpl; now rewrite IH.
Qed.

(** ** The scoring loops *)

Lemma fold_left_invariant {S X : Type} (P : S -> Prop) (step : S -> X -> S) :
  (forall st x, P st -> P (step st x)) ->
  forall l st, P st -> P (fold_left step l st).
Proof.
  intros Hstep l. induction l as [|x l IH]; intros st Hst; simpl; auto.
Qed.

Lemma contribute_bounded (n : Z) (reason : string) (st : Scoring) :
  1 <= n <= 2 -> bounded st -> bounded (contribute n reason st).
Proof.
  unfold bounded, contribute. cbn [fst snd]. intros Hn Hst.
  rewrite length_app. change (length [reason]) with 1%nat. lia.
Qed.

Lemma concept_step_bounded dom rep st c :
  bounded st -> bounded (concept_step dom rep st c).
Proof.
  unfold concept_step. destruct (_ || _)%bool; auto.
  apply contribute_bounded; lia.
Qed.

Lemma entity_step_bounded rep st e :
  bounded st -> bounded (entity_step rep st e).
Proof.
  unfold entity_step. destruct (contains e rep); auto.
  apply contribute_bounded; lia.
Qed.

Lemma geometry_step_bounded geo st e :
  bounded st -> bounded (geometry_step geo st e).
Proof.
  unfold geometry_step.
  destruct (_ && _)%bool; [intros; apply contribute_bounded; auto; lia|].
  destruct (_ && _)%bool; [intros; apply contribute_bounded; auto; lia|].
  auto.
Qed.

Lemma task_step_bounded cs st t :
  bounded st -> bounded (task_step cs st t).
Proof.
  unfold task_step. destruct (existsb _ cs); auto.
  apply contribute_bounded; lia.
Qed.

Lemma score_dataset_bounded cs es d : bounded (score_dataset cs es d).
Proof.
  unfold score_dataset, score_semantic_geometry.
  apply fold_left_invariant; [intros; now apply task_step_bounded|].
  apply fold_left_invariant; [intros; now apply geometry_step_bounded|].
  apply fold_left_invariant; [intros; now apply entity_step_bounded|].
  apply fold_left_invariant; [intros; now apply concept_step_bounded|].
  unfold bounded. simpl. lia.
Qed.

(** C9: every returned entry has a non-empty list of reasons, and its score
    lies between the number of reasons and twice that number. *)
Theorem reasons_bound_score (kb : list Dataset) (pq : ParsedIntent) :
  forall r, In r (_search_knowledge_base kb pq) ->
    reasons r <> []
    /\ Z.of_nat (length (reasons r)) <= relevance_score r
       <= 2 * Z.of_nat (length (reasons r)).
Proof.
  intros r Hr. apply search_In in Hr. destruct Hr as [d [_ [Hpos ->]]].
  pose proof (score_dataset_bounded (map lower (concepts pq))
                (map lower (entities pq)) d) as Hb.
  fold (score_of pq d) in Hb. unfold bounded in Hb.
  unfold ranked in *. cbn [reasons relevance_score] in *.
  split; [|exact Hb].
  intros Hnil. rewrite Hnil in Hb. cbn [length] in Hb. lia.
Qed.

Lemma reasons_bound_score_witness :
  In (ranked (scenario_intent [] [] "")
        (scenario_dataset "centers.shp" "data/centers.shp" "geospatial"))
     (_search_knowledge_base
        [scenario_dataset "centers.shp" "data/centers.shp" "geospatial"]
        (scenario_intent [] [] ""))
  /\ reasons (ranked (scenario_intent [] [] "")
                (scenario_dataset "centers.shp" "data/centers.shp" "geospatial"))
     <> [].
Proof.
  assert (H : In (ranked (scenario_intent [] [] "")
                    (scenario_dataset "centers.shp" "data/centers.shp" "geospatial"))
                 (_search_knowledge_base
                    [scenario_dataset "centers.shp" "data/centers.shp" "geospatial"]
                    (scenario_intent [] [] "")))
    by (left; reflexivity).
  split; [exact H|].
  exact (proj1 (reasons_bound_score _ _ _ H)).
Defined.

(** The capable-task loop adds one point and one reason per matching task. *)
Lemma task_loop (cs : list string) (tasks : list string) (st : Scoring) :
  let hit := filter (fun t => existsb (fun c => contains c (lower t)) cs) tasks in
  fold_left (task_step cs) tasks st
  = (fst st + Z.of_nat (length hit), (snd st ++ map task_reason hit)%list).
Proof.
  revert st. induction tasks as [|t tasks IH]; intros st; simpl.
  - rewrite Z.add_0_r, app_nil_r. now destruct st.
  - rewrite IH. unfold task_step.
    destruct (existsb (fun c => contains c (lower t)) cs); simpl.
    + f_equal; [lia|]. rewrite <- app_assoc. reflexivity.
    + reflexivity.
Qed.

(** C8: the capable-task contribution to the score is the number of tasks of
    which some concept is a case-insensitive substring, one point per such
    task however many concepts match it, with one reason per such task, in
    the order of the tasks, appended after the reasons of the other
    contributions. *)
Theorem capable_tasks_one_point_per_task (pq : ParsedIntent) (d : Dataset) :
  let before :=
    score_semantic_geometry (map lower (concepts pq)) (map lower (entities pq)) d in
  fst (score_of pq d) = fst before + Z.of_nat (length (matching_tasks pq d))
  /\ snd (score_of pq d)
     = (snd before ++ map task_reason (matching_tasks pq d))%list.
Proof.
  intros before. unfold score_of, score_dataset. fold before.
  rewrite task_loop. simpl.
  assert (E : filter
                (fun t => existsb (fun c => contains c (lower t))
                            (map lower (concepts pq)))
                (get (capable_tasks d) [])
              = matching_tasks pq d).
  { unfold matching_tasks. apply filter_ext. intros t.
    induction (concepts pq) as [|c cs IH]; simpl; [reflexivity|].
    now rewrite IH. }
  rewrite E. split; reflexivity.
Qed.

(** ** The empty concept *)

Lemma search_datasets_perm (kb : list Dataset) (pq : ParsedIntent) :
  Permutation (map dataset (_search_knowledge_base kb pq))
    (filter (fun d => 0 <? fst (score_of pq d)) kb).
Proof.
  assert (E : forall l, map dataset (map (ranked pq) l) = l).
  { intros l. rewrite map_map. apply map_id. }
  rewrite <- (E (filter _ kb)). apply Permutation_map, search_perm.
Qed.

Lemma contains_empty (hay : string) : contains "" hay = true.
Proof. destruct hay; reflexivity. Qed.

Lemma fold_left_score_mono {X : Type} (step : Scoring -> X -> Scoring) :
  (forall st x, fst st <= fst (step st x)) ->
  forall l st, fst st <= fst (fold_left step l st).
Proof.
  intros Hstep l. induction l as [|x l IH]; intros st; simpl; [lia|].
  specialize (Hstep st x). specialize (IH (step st x)). lia.
Qed.

Lemma concept_step_mono dom rep st c : fst st <= fst (concept_step dom rep st c).
Proof. unfold concept_step. destruct (_ || _)%bool; simpl; lia. Qed.

Lemma entity_step_mono rep st e : fst st <= fst (entity_step rep st e).
Proof. unfold entity_step. destruct (contains e rep); simpl; lia. Qed.

Lemma geometry_step_mono geo st e : fst st <= fst (geometry_step geo st e).
Proof.
  unfold geometry_step.
  destruct (_ && _)%bool; simpl; [lia|]. destruct (_ && _)%bool; simpl; lia.
Qed.

Lemma task_step_mono cs st t : fst st <= fst (task_step cs st t).
Proof. unfold task_step. destruct (existsb _ cs); simpl; lia. Qed.

Lemma concept_loop_hit dom rep (c : string) (cs : list string) (st : Scoring) :
  In c cs -> (contains c dom || contains c rep)%bool = true ->
  fst st + 2 <= fst (fold_left (concept_step dom rep) cs st).
Proof.
  revert st. induction cs as [|c' cs IH]; intros st Hin Hc; [destruct Hin|].
  simpl. destruct Hin as [-> | Hin].
  - eapply Z.le_trans; [|apply fold_left_score_mono, concept_step_mono].
    unfold concept_step. rewrite Hc. simpl. lia.
  - specialize (IH (concept_step dom rep st c') Hin Hc).
    pose proof (concept_step_mono dom rep st c'). lia.
Qed.

Lemma empty_concept_scores_two (pq : ParsedIntent) (d : Dataset) :
  In "" (concepts pq) -> 2 <= fst (score_of pq d).
Proof.
  intros Hin. unfold score_of, score_dataset, score_semantic_geometry.
  eapply Z.le_trans; [|apply fold_left_score_mono, task_step_mono].
  eapply Z.le_trans; [|apply fold_left_score_mono, geometry_step_mono].
  eapply Z.le_trans; [|apply fold_left_score_mono, entity_step_mono].
  change 2 with (fst ((0, []) : Scoring) + 2).
  apply concept_loop_hit with (c := "").
  - change "" with (lower ""). now apply in_map.
  - now rewrite contains_empty.
Qed.

(** C10: a response whose CONCEPTS line has nothing after the marker is
    parsed to the concept list holding the empty string; and when the empty
    string is among the concepts, every dataset scores at least 2 and the
    datasets of the output are those of the knowledge base. *)
Theorem empty_concept_returns_every_dataset :
  (forall parsed raw_line,
      strip raw_line = "CONCEPTS:" ->
      parse_line parsed raw_line = Return (set_concepts parsed [""]))
  /\ (forall chat query,
        chat (parse_prompt query) = Return "CONCEPTS:" ->
        exists p, _parse_query chat query = Return p /\ concepts p = [""])
  /\ (forall kb pq, In "" (concepts pq) ->
        (forall d, In d kb -> 2 <= fst (score_of pq d))
        /\ Permutation (map dataset (_search_knowledge_base kb pq)) kb
        /\ length (_search_knowledge_base kb pq) = length kb).
Proof.
  split; [|split].
  - intros parsed raw_line H. unfold parse_line. rewrite H. reflexivity.
  - intros chat query H. unfold _parse_query. rewrite H.
    eexists. split; reflexivity.
  - intros kb pq Hin.
    assert (Hall : filter (fun d => 0 <? fst (score_of pq d)) kb = kb).
    { apply forallb_filter_id. apply forallb_forall. intros d _.
      apply Z.ltb_lt. pose proof (empty_concept_scores_two pq d Hin). lia. }
    pose proof (search_datasets_perm kb pq) as Hperm.
    rewrite Hall in Hperm.
    split; [intros d _; now apply empty_concept_scores_two|].
    split; [exact Hperm|].
    rewrite <- (length_map dataset). now apply Permutation_length.
Qed.

Lemma empty_concept_returns_every_dataset_witness :
  In "" (concepts (set_concepts (scenario_intent [] [] "") [""]))
  /\ length (_search_knowledge_base
               [scenario_dataset "a.shp" "data/a.shp" "geospatial";
                {| file_name := "b.csv"; file_path := "data/b.csv";
                   data_type := "tabular"; semantic_context := None;
                   spatial_context := None; capable_tasks := None |}]
               (set_concepts (scenario_intent [] [] "") [""]))
     = 2%nat.
Proof.
  assert (H : In "" (concepts (set_concepts (scenario_intent [] [] "") [""])))
    by (left; reflexivity).
  split; [exact H|].
  exact (proj2 (proj2 (proj2 (proj2 empty_concept_returns_every_dataset) _ _ H))).
Defined.

(** ** The accessibility scenario *)

(** C2 as stated fails: in the scenario the ranking does not return an entry
    of score 4 with two reasons. *)
Lemma scenario_score_is_not_four :
  ~ (exists r,
        _search_knowledge_base
          [scenario_dataset "centers.shp" "data/centers.shp" "geospatial"]
          (scenario_intent [] [] "")
        = [r]
        /\ relevance_score r = 4
        /\ length (reasons r) = 2%nat).
Proof.
  intros [r [H [Hs _]]].
  change (_search_knowledge_base
            [scenario_dataset "centers.shp" "data/centers.shp" "geospatial"]
            (scenario_intent [] [] ""))
    with [{| dataset := scenario_dataset "centers.shp" "data/centers.shp" "geospatial";
             relevance_score := 2;
             reasons := ["Matches concept: accessibility"] |}] in H.
  injection H as <-. discriminate Hs.
Qed.

(** C2, amended: in the scenario the ranking returns the dataset with score 2
    and the single reason of the concept-in-domain match; the entity
    [activity centers] is not a substring of [activity center boundaries], so
    the entity contribution is absent. *)
Theorem scenario_score_is_two (fname fpath dtype : string)
  (fs sp : list string) (it : string) :
  _search_knowledge_base [scenario_dataset fname fpath dtype]
    (scenario_intent fs sp it)
  = [{| dataset := scenario_dataset fname fpath dtype;
        relevance_score := 2;
        reasons := ["Matches concept: accessibility"] |}]
  /\ contains (lower "activity centers") (lower "activity center boundaries")
     = false.
Proof. split; reflexivity. Qed.

(** ** Strings: prefixes, occurrences, pieces of a split *)

Lemma append_nil_r (s : string) : s ++ "" = s.
Proof. induction s as [|c s IH]; simpl; [reflexivity | now rewrite IH]. Qed.

Lemma append_assoc (a b c : string) : (a ++ b) ++ c = a ++ b ++ c.
Proof. induction a as [|x a IH]; simpl; [reflexivity | now rewrite IH]. Qed.

Lemma prefix_nil (s : string) : String.prefix "" s = true.
Proof. destruct s; reflexivity. Qed.

Lemma prefix_append (p b : string) : String.prefix p (p ++ b) = true.
Proof.
  induction p as [|c p IH]; simpl; [apply prefix_nil|].
  destruct (ascii_dec c c); [exact IH | congruence].
Qed.

Lemma prefix_true_append (p s : string) :
  String.prefix p s = true -> exists b, s = p ++ b.
Proof.
  revert s. induction p as [|c p IH]; intros s H.
  - exists s. reflexivity.
  - destruct s as [|c' s]; simpl in H; [discriminate|].
    destruct (ascii_dec c c') as [<-|]; [|discriminate].
    destruct (IH s H) as [b ->]. exists b. reflexivity.
Qed.

Lemma contains_unfold (needle hay : string) :
  contains needle hay
  = (String.prefix needle hay
     || match hay with
        | EmptyString => false
        | String _ hay' => contains needle hay'
        end)%bool.
Proof. destruct hay; reflexivity. Qed.

Lemma occurs_contains (needle hay : string) :
  occurs needle hay -> contains needle hay = true.
Proof.
  intros [a [b ->]]. induction a as [|c a IH].
  - rewrite contains_unfold. simpl. now rewrite prefix_append.
  - rewrite contains_unfold. simpl. rewrite IH. apply orb_true_r.
Qed.

Lemma contains_occurs (needle hay : string) :
  contains needle hay = true -> occurs needle hay.
Proof.
  induction hay as [|c hay IH]; rewrite contains_unfold; intros H;
    apply orb_true_iff in H; destruct H as [H | H].
  - apply prefix_true_append in H as [b Hb]. exists "", b. exact Hb.
  - discriminate.
  - apply prefix_true_append in H as [b Hb]. exists "", b. exact Hb.
  - destruct (IH H) as [a [b ->]]. exists (String c a), b. reflexivity.
Qed.

Lemma occurs_refl (s : string) : occurs s s.
Proof. exists "", "". simpl. now rewrite append_nil_r. Qed.

Lemma occurs_trans (a b c : string) : occurs a b -> occurs b c -> occurs a c.
Proof.
  intros [u [v ->]] [x [y ->]]. exists (x ++ u), (v ++ y).
  now rewrite !append_assoc.
Qed.

Lemma occurs_cons (x : string) (c : ascii) (s : string) :
  occurs x s -> occurs x (String c s).
Proof. intros [a [b ->]]. exists (String c a), b. reflexivity. Qed.

Lemma occurs_lstrip (s : string) : occurs (lstrip s) s.
Proof.
  induction s as [|c s IH]; simpl; [apply occurs_refl|].
  destruct (is_space c); [now apply occurs_cons | apply occurs_refl].
Qed.

Lemma rstrip_prefix (s : string) : exists b, s = rstrip s ++ b.
Proof.
  induction s as [|c s [b Hb]]; simpl; [now exists ""|].
  destruct (rstrip s) as [|c' r] eqn:E.
  - destruct (is_space c).
    + exists (String c s). reflexivity.
    + exists b. simpl. simpl in Hb. now rewrite <- Hb.
  - exists b. simpl. f_equal. exact Hb.
Qed.

Lemma occurs_strip (s : string) : occurs (strip s) s.
Proof.
  unfold strip. apply occurs_trans with (b := lstrip s); [|apply occurs_lstrip].
  destruct (rstrip_prefix (lstrip s)) as [b Hb].
  exists "", b. exact Hb.
Qed.

Lemma split_go_skip sep k cur c s :
  split_go sep (S k) cur (String c s) = split_go sep k cur s.
Proof. reflexivity. Qed.

Lemma split_go_scan sep cur c s :
  split_go sep 0 cur (String c s)
  = if String.prefix sep (String c s)
    then cur :: split_go sep (Nat.pred (String.length sep)) "" s
    else split_go sep 0 (cur ++ String c "") s.
Proof. reflexivity. Qed.

(** Every piece of a split occurs in the text that was split. *)
Lemma split_go_occurs (sep : string) (s : string) :
  forall (skip : nat) (cur x : string),
    (skip <> 0%nat -> cur = "") ->
    In x (split_go sep skip cur s) ->
    occurs x s \/ (skip = 0%nat /\ exists u v, x = cur ++ u /\ s = u ++ v).
Proof.
  induction s as [|c s IH]; intros skip cur x Hcur Hin.
  - simpl in Hin. destruct Hin as [<- | []].
    destruct skip as [|k].
    + right. split; [reflexivity|]. exists "", "". now rewrite append_nil_r.
    + left. rewrite Hcur by discriminate. apply occurs_refl.
  - destruct skip as [|k];
      [rewrite split_go_scan in Hin | rewrite split_go_skip in Hin].
    + destruct (String.prefix sep (String c s)).
      * destruct Hin as [<- | Hin].
        -- right. split; [reflexivity|]. exists "", (String c s).
           now rewrite append_nil_r.
        -- left. apply occurs_cons.
           destruct (IH _ _ _ (fun _ => eq_refl) Hin) as [H | [_ [u [v [-> ->]]]]];
             [exact H|].
           exists "", v. reflexivity.
      * destruct (IH 0%nat (cur ++ String c "") x (fun H => False_ind _ (H eq_refl)) Hin)
          as [H | [_ [u [v [-> ->]]]]].
        -- left. now apply occurs_cons.
        -- right. split; [reflexivity|]. exists (String c u), v.
           split; [|reflexivity]. now rewrite append_assoc.
    + left. apply occurs_cons. rewrite (Hcur ltac:(discriminate)) in Hin.
      destruct (IH k "" x (fun _ => eq_refl) Hin) as [H | [_ [u [v [-> ->]]]]];
        [exact H|].
      exists "", v. reflexivity.
Qed.

Lemma split_occurs (s sep x : string) : In x (split s sep) -> occurs x s.
Proof.
  intros H. apply split_go_occurs in H; [|congruence].
  destruct H as [H | [_ [u [v [-> ->]]]]]; [exact H|].
  exists "", v. reflexivity.
Qed.

Lemma split_go_nonempty sep s : forall skip cur, split_go sep skip cur s <> [].
Proof.
  induction s as [|c s IH]; intros skip cur; [discriminate|].
  destruct skip; [rewrite split_go_scan | rewrite split_go_skip; apply IH].
  destruct (String.prefix sep (String c s)); [discriminate | apply IH].
Qed.

(** ** [_parse_query] *)

Lemma for_each_fixed {S X : Type} (step : S -> X -> result S) (st : S) (xs : list X) :
  (forall x, In x xs -> step st x = Return st) ->
  for_each step xs st = Return st.
Proof.
  induction xs as [|x xs IH]; intros H; simpl; [reflexivity|].
  rewrite (H x (or_introl eq_refl)). simpl. apply IH.
  intros y Hy. apply H. now right.
Qed.

(** A line that starts with a marker and its colon holds the marker. *)
Lemma startswith_occurs (line marker rest : string) :
  startswith (strip line) (marker ++ rest) = true -> occurs marker line.
Proof.
  unfold startswith. intros H. apply prefix_true_append in H as [b Hb].
  apply occurs_trans with (b := strip line); [|apply occurs_strip].
  exists "", (rest ++ b). rewrite Hb. simpl. now rewrite append_assoc.
Qed.

Lemma parse_line_without_marker (parsed : ParsedIntent) (line : string) :
  has_marker line = false -> parse_line parsed line = Return parsed.
Proof.
  intros H. unfold has_marker, markers in H. simpl in H.
  repeat (apply orb_false_iff in H; destruct H as [? H]).
  unfold parse_line.
  repeat match goal with
  | |- (if startswith ?l ?m then _ else _) = _ =>
      let E := fresh "E" in
      destruct (startswith l m) eqn:E
  end; try reflexivity.
  all: exfalso.
  all: match goal with
       | E : startswith _ (String ?c ?m) = true |- _ =>
           match goal with
           | N : contains ?mk _ = false |- _ =>
               assert (occurs mk line)
                 by (apply (startswith_occurs line mk ":"); exact E);
               assert (contains mk line = true) by (now apply occurs_contains);
               congruence
           end
       end.
Qed.

Lemma has_marker_piece (content line : string) :
  occurs line content -> has_marker content = false -> has_marker line = false.
Proof.
  unfold has_marker. intros Hocc H.
  destruct (existsb (fun m => contains m line) markers) eqn:E; [|reflexivity].
  apply existsb_exists in E. destruct E as [m [Hm Hc]].
  assert (existsb (fun m => contains m content) markers = true); [|congruence].
  apply existsb_exists. exists m. split; [exact Hm|].
  apply occurs_contains. apply occurs_trans with (b := line); [|exact Hocc].
  now apply contains_occurs.
Qed.

Lemma parse_response_without_marker (query content : string) :
  has_marker content = false ->
  parse_response query content = Return (initial_parsed query).
Proof.
  intros H. unfold parse_response. apply for_each_fixed.
  intros line Hin. apply parse_line_without_marker.
  apply has_marker_piece with (content := content); [|exact H].
  now apply split_occurs with (sep := newline).
Qed.

(** C3 as stated fails for a response without markers: the parse succeeds
    with empty lists, but its intent is the empty string, not the query. *)
Lemma unmarked_response_intent_is_not_query :
  has_marker "I am unable to help with this request." = false
  /\ ~ (exists p,
          _parse_query (constant_chat "I am unable to help with this request.")
            "Find parks near schools"
          = Return p
          /\ intent p = "Find parks near schools").
Proof.
  split; [reflexivity|].
  intros [p [H Hi]].
  change (_parse_query (constant_chat "I am unable to help with this request.")
            "Find parks near schools")
    with (Return (initial_parsed "Find parks near schools")) in H.
  injection H as <-. discriminate Hi.
Qed.

(** C3, amended: [_parse_query] always returns a parsed intent.  When the
    generation call raises, the four lists are empty and the intent is the
    raw query.  When the call succeeds and the response contains none of the
    five markers, the four lists are empty and the intent is the empty
    string. *)
Theorem parse_query_degrades (chat : string -> result string) (query : string) :
  (exists p, _parse_query chat query = Return p)
  /\ (forall e, chat (parse_prompt query) = Raise e ->
        _parse_query chat query
        = Return {| original_query := query; concepts := []; entities := [];
                    filters := []; spatial_relationships := [];
                    intent := query |})
  /\ (forall content,
        chat (parse_prompt query) = Return content ->
        has_marker content = false ->
        _parse_query chat query
        = Return {| original_query := query; concepts := []; entities := [];
                    filters := []; spatial_relationships := [];
                    intent := "" |}).
Proof.
  split; [|split].
  - unfold _parse_query, try_except.
    destruct (content <- chat (parse_prompt query) ;; parse_response query content);
      eauto.
  - intros e H. unfold _parse_query. rewrite H. reflexivity.
  - intros content H Hm. unfold _parse_query. rewrite H. simpl.
    rewrite (parse_response_without_marker query content Hm). reflexivity.
Qed.

Lemma parse_query_degrades_witness :
  _parse_query (failing_chat (ClientError "connection refused"))
    "Find parks near schools"
  = Return {| original_query := "Find parks near schools"; concepts := [];
              entities := []; filters := []; spatial_relationships := [];
              intent := "Find parks near schools" |}
  /\ _parse_query (constant_chat "I am unable to help with this request.")
       "Find parks near schools"
     = Return {| original_query := "Find parks near schools"; concepts := [];
                 entities := []; filters := []; spatial_relationships := [];
                 intent := "" |}.
Proof.
  split.
  - exact (proj1 (proj2 (parse_query_degrades
                           (failing_chat (ClientError "connection refused"))
                           "Find parks near schools"))
             (ClientError "connection refused") eq_refl).
  - exact (proj2 (proj2 (parse_query_degrades
                           (constant_chat "I am unable to help with this request.")
                           "Find parks near schools"))
             "I am unable to help with this request." eq_refl eq_refl).
Defined.

(** ** [_activate_ontology] *)

Lemma concept_match_loop (g : Graph) (cs : list string) (ctx : ActivatedContext) :
  fold_left (concept_match_step g) cs ctx
  = {| relevant_concepts :=
         (relevant_concepts ctx
          ++ flat_map (fun c => _fuzzy_match_ontology_term g c "PlanningConcept") cs)%list;
       relevant_entities := relevant_entities ctx;
       relevant_methods := relevant_methods ctx;
       relationships := relationships ctx |}.
Proof.
  revert ctx. induction cs as [|c cs IH]; intros ctx; simpl.
  - rewrite app_nil_r. now destruct ctx.
  - rewrite IH. unfold concept_match_step at 1 2 3 4. simpl.
    now rewrite <- app_assoc.
Qed.

Lemma entity_match_loop (g : Graph) (es : list string) (ctx : ActivatedContext) :
  fold_left (entity_match_step g) es ctx
  = {| relevant_concepts := relevant_concepts ctx;
       relevant_entities :=
         (relevant_entities ctx
          ++ flat_map (fun e => _fuzzy_match_ontology_term g e "UrbanEntity") es)%list;
       relevant_methods := relevant_methods ctx;
       relationships := relationships ctx |}.
Proof.
  revert ctx. induction es as [|e es IH]; intros ctx; simpl.
  - rewrite app_nil_r. now destruct ctx.
  - rewrite IH. unfold entity_match_step at 1 2 3 4. simpl.
    now rewrite <- app_assoc.
Qed.

Lemma relationship_row_loop (uri : string) (rows : list (string * string))
  (rels : list Relationship) :
  fold_left (relationship_row_step uri) rows rels
  = (rels
     ++ map (fun row : string * string =>
               {| subject := uri; predicate := fst row; object := snd row |})
            rows)%list.
Proof.
  revert rels. induction rows as [|row rows IH]; intros rels; simpl.
  - now rewrite app_nil_r.
  - rewrite IH. unfold relationship_row_step. now rewrite <- app_assoc.
Qed.

Lemma relationship_loop (g : Graph) (uris : list string) (rels : list Relationship) :
  fold_left (relationship_step g) uris rels
  = (rels ++ flat_map (relations_of g) uris)%list.
Proof.
  revert rels. induction uris as [|uri uris IH]; intros rels; simpl.
  - now rewrite app_nil_r.
  - rewrite IH. unfold relationship_step. rewrite relationship_row_loop.
    unfold relations_of. now rewrite <- app_assoc.
Qed.

Lemma mem_In (x : string) (l : list string) : mem x l = true <-> In x l.
Proof.
  unfold mem. rewrite existsb_exists. split.
  - intros [y [Hy E]]. apply String.eqb_eq in E. now subst.
  - intros H. exists x. split; [exact H | apply String.eqb_refl].
Qed.

Lemma method_row_loop (rows : list string) (methods : list string) :
  NoDup methods ->
  NoDup (fold_left method_row_step rows methods)
  /\ forall m, In m (fold_left method_row_step rows methods)
               <-> In m methods \/ In m (map local_name rows).
Proof.
  revert methods. induction rows as [|row rows IH]; intros methods Hnd; simpl.
  - split; [exact Hnd | intros m; tauto].
  - assert (Hstep : NoDup (method_row_step methods row)
                    /\ forall m, In m (method_row_step methods row)
                                 <-> In m methods \/ local_name row = m).
    { unfold method_row_step.
      destruct (mem (local_name row) methods) eqn:E; simpl.
      - apply mem_In in E. split; [exact Hnd|].
        intros m. split; [tauto|]. intros [H | <-]; assumption.
      - assert (~ In (local_name row) methods) as Hn.
        { intros H. apply mem_In in H. congruence. }
        split.
        + apply NoDup_app; [exact Hnd | repeat constructor; intros [] |].
          intros x Hx [<- | []]. contradiction.
        + intros m. rewrite in_app_iff. simpl. tauto. }
    destruct Hstep as [Hnd' Hin'].
    destruct (IH _ Hnd') as [H1 H2]. split; [exact H1|].
    intros m. rewrite H2, Hin'. tauto.
Qed.

Lemma method_loop (g : Graph) (uris : list string) (methods : list string) :
  fold_left (method_step g) uris methods
  = fold_left method_row_step (flat_map (select_method g) uris) methods.
Proof.
  revert methods. induction uris as [|uri uris IH]; intros methods; simpl.
  - reflexivity.
  - rewrite IH. unfold method_step. now rewrite fold_left_app.
Qed.

Lemma count_occ_flat_map {X : Type} (f : X -> list string) (l : list X) (x : string) :
  count_occ string_dec (flat_map f l) x
  = list_sum (map (fun y => count_occ string_dec (f y) x) l).
Proof.
  induction l as [|y l IH]; simpl; [reflexivity|].
  now rewrite count_occ_app, IH.
Qed.

Lemma filter_filter {A : Type} (f h : A -> bool) (l : list A) :
  filter f (filter h l) = filter (fun x => (f x && h x)%bool) l.
Proof.
  induction l as [|x l IH]; [reflexivity|]. simpl.
  destruct (h x); simpl; [destruct (f x); now rewrite IH|].
  rewrite andb_false_r. exact IH.
Qed.

Lemma mem_app (x : string) (l l' : list string) :
  mem x (l ++ l') = (mem x l || mem x l')%bool.
Proof. unfold mem. apply existsb_app. Qed.

(** The method loop appends the names in the order of their first
    occurrence, skipping those the list already holds. *)
Lemma method_row_order (rows : list string) (methods : list string) :
  fold_left method_row_step rows methods
  = (methods
     ++ filter (fun m => negb (mem m methods))
          (first_occurrences (map local_name rows)))%list.
Proof.
  revert methods. induction rows as [|row rows IH]; intros methods.
  - simpl. now rewrite app_nil_r.
  - cbn [fold_left map first_occurrences filter]. rewrite IH.
    unfold method_row_step.
    destruct (mem (local_name row) methods) eqn:E; cbn [negb].
    + f_equal. rewrite filter_filter. apply filter_ext. intros m.
      destruct (String.eqb m (local_name row)) eqn:Em; cbn [negb];
        [|now rewrite andb_true_r].
      apply String.eqb_eq in Em. subst m. now rewrite E.
    + rewrite <- app_assoc. f_equal. cbn [app]. f_equal.
      rewrite filter_filter. apply filter_ext. intros m.
      rewrite mem_app. unfold mem at 2. cbn [existsb].
      rewrite orb_false_r, negb_orb. reflexivity.
Qed.

(** C5: the matches of every concept (entity) are appended in order and
    without de-duplication, so a node occurs as often as query terms match
    it, and every occurrence of a concept node contributes its relations
    again; the method names are pairwise distinct, are exactly the local
    names of the methods that apply to a matched entity, and stand in the
    order in which the loop first meets them: each name is appended at the
    end when the list does not hold it yet. *)
Theorem activation_keeps_duplicate_nodes_only (g : Graph) (pq : ParsedIntent) :
  relevant_concepts (_activate_ontology g pq)
  = flat_map (fun c => _fuzzy_match_ontology_term g c "PlanningConcept")
      (concepts pq)
  /\ relevant_entities (_activate_ontology g pq)
     = flat_map (fun e => _fuzzy_match_ontology_term g e "UrbanEntity")
         (entities pq)
  /\ (forall uri,
        count_occ string_dec (relevant_concepts (_activate_ontology g pq)) uri
        = list_sum
            (map (fun c =>
                    count_occ string_dec
                      (_fuzzy_match_ontology_term g c "PlanningConcept") uri)
                 (concepts pq)))
  /\ relationships (_activate_ontology g pq)
     = flat_map (relations_of g) (relevant_concepts (_activate_ontology g pq))
  /\ NoDup (relevant_methods (_activate_ontology g pq))
  /\ (forall m,
        In m (relevant_methods (_activate_ontology g pq))
        <-> exists entity_uri method_uri,
              In entity_uri (relevant_entities (_activate_ontology g pq))
              /\ In method_uri (select_method g entity_uri)
              /\ m = local_name method_uri)
  /\ relevant_methods (_activate_ontology g pq)
     = first_occurrences
         (map local_name
            (flat_map (select_method g)
               (relevant_entities (_activate_ontology g pq))))
  /\ (forall rows row,
        fold_left method_row_step (rows ++ [row]) []
        = if mem (local_name row) (fold_left method_row_step rows [])
          then fold_left method_row_step rows []
          else (fold_left method_row_step rows [] ++ [local_name row])%list).
Proof.
  unfold _activate_ontology.
  rewrite entity_match_loop, concept_match_loop. cbn [relevant_concepts
    relevant_entities relevant_methods relationships app].
  rewrite relationship_loop, method_loop. cbn [app].
  destruct (method_row_loop
              (flat_map (select_method g)
                 (flat_map (fun e => _fuzzy_match_ontology_term g e "UrbanEntity")
                    (entities pq)))
              [] (NoDup_nil _)) as [Hnd Hin].
  repeat split; try assumption.
  - intros uri. apply count_occ_flat_map.
  - intros H. apply Hin in H. destruct H as [[] | H].
    apply in_map_iff in H. destruct H as [row [<- Hrow]].
    apply in_flat_map in Hrow. destruct Hrow as [e [He Hr]].
    exists e, row. auto.
  - intros [e [row [He [Hr ->]]]]. apply Hin. right.
    apply in_map, in_flat_map. exists e. auto.
  - rewrite method_row_order. cbn [app mem existsb negb].
    apply forallb_filter_id. apply forallb_forall. reflexivity.
  - intros rows row. rewrite fold_left_app. cbn [fold_left].
    unfold method_row_step at 1.
    now destruct (mem (local_name row) (fold_left method_row_step rows [])).
Qed.

(** The sample ontology shows both effects at once. *)
Example activation_sample :
  relevant_concepts (_activate_ontology sample_ontology sample_intent)
  = [onto ++ "Density"; onto ++ "Density"]
  /\ length (relationships (_activate_ontology sample_ontology sample_intent))
     = (2 * length (relations_of sample_ontology (onto ++ "Density")))%nat
  /\ relevant_entities (_activate_ontology sample_ontology sample_intent)
     = [onto ++ "Parcel"; onto ++ "Building"]
  /\ relevant_methods (_activate_ontology sample_ontology sample_intent)
     = ["OverlayAnalysis"].
Proof. repeat split; reflexivity. Qed.

(** Two entities, two methods: the method met first stands first, and the
    method both entities share is listed once. *)
Example activation_method_order :
  relevant_entities
    (_activate_ontology two_method_ontology
       (set_entities (initial_parsed "") ["parcels"; "buildings"]))
  = [onto ++ "Parcel"; onto ++ "Building"]
  /\ relevant_methods
       (_activate_ontology two_method_ontology
          (set_entities (initial_parsed "") ["parcels"; "buildings"]))
     = ["OverlayAnalysis"; "BufferAnalysis"].
Proof. split; reflexivity. Qed.

(** ** Fenced responses *)

Lemma split_go_pass (sep t rest cur : string) :
  split_go sep (String.length t) cur (t ++ rest) = split_go sep 0 cur rest.
Proof. induction t as [|c t IH]; simpl; [reflexivity | exact IH]. Qed.

(** A character that does not occur in [s] is not its first character. *)
Lemma absent_head (q c : ascii) (s : string) :
  contains (String q "") (String c s) = false ->
  q <> c /\ contains (String q "") s = false.
Proof.
  rewrite contains_unfold. intros H. apply orb_false_iff in H.
  destruct H as [H1 H2]. split; [|exact H2].
  intros ->. simpl in H1. destruct (ascii_dec c c); [|congruence].
  now rewrite prefix_nil in H1.
Qed.

Lemma prefix_head_differs (q c : ascii) (sep s : string) :
  q <> c -> String.prefix (String q sep) (String c s) = false.
Proof. intros H. simpl. destruct (ascii_dec q c); [contradiction | reflexivity]. Qed.

(** The first piece of a split ends where the separator first occurs, when
    the text before it is free of the separator's first character. *)
Lemma split_go_first (q : ascii) (sep p rest cur : string) :
  contains (String q "") p = false ->
  split_go (String q sep) 0 cur (p ++ String q sep ++ rest)
  = (cur ++ p) :: split_go (String q sep) 0 "" rest.
Proof.
  revert cur. induction p as [|c p IH]; intros cur H.
  - change ("" ++ String q sep ++ rest) with (String q (sep ++ rest)).
    rewrite split_go_scan.
    change (String q (sep ++ rest)) with (String q sep ++ rest).
    rewrite prefix_append, append_nil_r. f_equal.
    apply split_go_pass.
  - apply absent_head in H. destruct H as [Hq Hp].
    change (String c p ++ String q sep ++ rest)
      with (String c (p ++ String q sep ++ rest)).
    rewrite split_go_scan, (prefix_head_differs q c sep _ Hq), (IH _ Hp).
    now rewrite append_assoc.
Qed.

Lemma split_first (q : ascii) (sep p rest : string) :
  contains (String q "") p = false ->
  split (p ++ String q sep ++ rest) (String q sep)
  = p :: split rest (String q sep).
Proof. intros H. unfold split. now rewrite split_go_first. Qed.

(** A text without the separator is the only piece. *)
Lemma split_go_absent (sep s cur : string) :
  contains sep s = false -> split_go sep 0 cur s = [cur ++ s].
Proof.
  revert cur. induction s as [|c s IH]; intros cur H.
  - simpl. now rewrite append_nil_r.
  - rewrite contains_unfold in H. apply orb_false_iff in H. destruct H as [H1 H2].
    rewrite split_go_scan, H1, (IH _ H2). now rewrite append_assoc.
Qed.

Lemma split_absent (sep s : string) : contains sep s = false -> split s sep = [s].
Proof. intros H. unfold split. now rewrite split_go_absent. Qed.

(** A text that holds the separator splits into at least two pieces. *)
Lemma split_go_present (sep s cur : string) :
  contains sep s = true -> sep <> "" ->
  exists x y l, split_go sep 0 cur s = x :: y :: l.
Proof.
  intros H Hsep. revert cur H. induction s as [|c s IH]; intros cur H.
  - destruct sep; [contradiction | discriminate].
  - rewrite split_go_scan. rewrite contains_unfold in H.
    destruct (String.prefix sep (String c s)).
    + destruct (split_go sep (Nat.pred (String.length sep)) "" s) as [|y l] eqn:E.
      * now apply split_go_nonempty in E.
      * now exists cur, y, l.
    + simpl in H. apply IH. exact H.
Qed.

Lemma contains_longer (a b s : string) :
  contains a s = false -> contains (a ++ b) s = false.
Proof.
  intros H. destruct (contains (a ++ b) s) eqn:E; [|reflexivity].
  apply contains_occurs in E. destruct E as [u [v ->]].
  rewrite occurs_contains in H; [discriminate|].
  exists u, (b ++ v). now rewrite append_assoc.
Qed.

(** Past a text free of the separator's first character, the separator
    occurs exactly when it occurs in the rest. *)
Lemma contains_skip (q : ascii) (sep p t : string) :
  contains (String q "") p = false ->
  contains (String q sep) (p ++ t) = contains (String q sep) t.
Proof.
  induction p as [|c p IH]; intros H; [reflexivity|].
  apply absent_head in H. destruct H as [Hq Hp].
  change (String c p ++ t) with (String c (p ++ t)).
  rewrite contains_unfold, (prefix_head_differs q c sep _ Hq). simpl.
  now apply IH.
Qed.

(** [extract_json] never raises: the indexing is guarded by the tests. *)
Lemma extract_json_total (content : string) :
  exists payload, extract_json content = Return payload.
Proof.
  unfold extract_json.
  assert (Hhead : forall s sep, exists x, item (split s sep) 0 = Return x).
  { intros s sep. unfold split.
    destruct (split_go sep 0 "" s) as [|x l] eqn:E;
      [now apply split_go_nonempty in E | now exists x]. }
  destruct (contains fence_json content) eqn:E1.
  - destruct (split_go_present fence_json content "" E1) as [x [y [l E]]];
      [discriminate|].
    unfold split at 1. rewrite E. simpl.
    destruct (Hhead y fence) as [b ->]. simpl. eauto.
  - destruct (contains fence content) eqn:E2; [|eauto].
    destruct (split_go_present fence content "" E2) as [x [y [l E]]];
      [discriminate|].
    unfold split at 1. rewrite E. simpl.
    destruct (Hhead y fence) as [b ->]. simpl. eauto.
Qed.

(** A response with no fence is decoded as it is. *)
Lemma extract_json_unfenced (content : string) :
  contains fence content = false -> extract_json content = Return content.
Proof.
  intros H. unfold extract_json. rewrite H.
  change fence_json with (fence ++ "json").
  now rewrite (contains_longer fence "json" content H).
Qed.

(** A block fenced by three backquotes: the body is decoded. *)
Lemma extract_json_plain_fence (p b rest : string) :
  contains backquote p = false ->
  contains backquote b = false ->
  contains fence_json (p ++ fence ++ b ++ fence ++ rest) = false ->
  extract_json (p ++ fence ++ b ++ fence ++ rest) = Return (strip b).
Proof.
  intros Hp Hb Hj. unfold extract_json. rewrite Hj.
  rewrite (occurs_contains fence); [|now exists p, (b ++ fence ++ rest)].
  unfold fence, backquote in *.
  rewrite (split_first _ _ p _ Hp), (split_first _ _ b _ Hb).
  cbn [item nth_error bind].
  rewrite split_absent; [reflexivity|].
  apply (contains_longer "`" "``" b Hb).
Qed.

(** After a text free of backquotes, the closing fence starts a [```json]
    fence only when [json] follows it. *)
Lemma closing_fence_only (rest : string) :
  contains backquote rest = false ->
  String.prefix "json" rest = false ->
  contains fence_json (fence ++ rest) = false.
Proof.
  intros Hr E. unfold fence, fence_json, backquote in *.
  assert (Hlong : contains "```json" rest = false)
    by apply (contains_longer "`" "``json" rest Hr).
  destruct rest as [|c rest]; [reflexivity|].
  apply absent_head in Hr. destruct Hr as [Hq _].
  cbn [append].
  do 3 (rewrite contains_unfold; cbn [String.prefix]).
  cbn [String.prefix] in E.
  destruct (ascii_dec "`" "`"); [|congruence].
  destruct (ascii_dec "`" c); [contradiction|].
  rewrite E, Hlong. reflexivity.
Qed.

(** A block fenced by [```json] and three backquotes: the body is decoded. *)
Lemma extract_json_json_fence (p b rest : string) :
  contains backquote p = false ->
  contains backquote b = false ->
  contains backquote rest = false ->
  extract_json (p ++ fence_json ++ b ++ fence ++ rest) = Return (strip b).
Proof.
  intros Hp Hb Hr. unfold extract_json.
  rewrite (occurs_contains fence_json); [|now exists p, (b ++ fence ++ rest)].
  assert (Hbody : forall t, split (b ++ fence ++ t) fence = b :: split t fence).
  { intros t. unfold fence, backquote in *. apply (split_first _ _ b _ Hb). }
  assert (Hnone : split b fence = [b]).
  { apply split_absent. unfold fence, backquote in *.
    apply (contains_longer "`" "``" b Hb). }
  assert (Hfirst : split (p ++ fence_json ++ b ++ fence ++ rest) fence_json
                   = p :: split (b ++ fence ++ rest) fence_json).
  { unfold fence_json, backquote in *. apply (split_first _ _ p _ Hp). }
  rewrite Hfirst.
  destruct (String.prefix "json" rest) eqn:E.
  - apply prefix_true_append in E. destruct E as [r ->].
    assert (Hsecond : split (b ++ fence ++ "json" ++ r) fence_json
                      = b :: split r fence_json).
    { unfold backquote in Hb.
      change (b ++ fence ++ "json" ++ r) with (b ++ fence_json ++ r).
      unfold fence_json. apply (split_first _ _ b r Hb). }
    rewrite Hsecond. cbn [item nth_error bind]. now rewrite Hnone.
  - rewrite (split_absent fence_json (b ++ fence ++ rest)).
    + cbn [item nth_error bind]. now rewrite Hbody.
    + unfold fence_json at 1. unfold backquote in Hb.
      rewrite (contains_skip _ _ b _ Hb).
      now apply closing_fence_only.
Qed.

(** ** Workflow synthesis and the sufficiency check *)

(** C7: workflow synthesis always yields a workflow.  The text handed to the
    decoder is the stripped response with its fence removed: the stripped
    body of a [```json] block or of a plain fenced block, the stripped
    response itself when it has no fence.  When the generation call raises or
    the decoder rejects that text, the workflow is the fallback: no steps,
    sufficiency [unknown], no missing data, and the note that manual workflow
    design is needed. *)
Theorem workflow_synthesis_falls_back
  (chat : string -> result string) (json_loads : string -> result json)
  (prompt : string) :
  (exists w, synthesize_workflow chat json_loads prompt = Return w)
  /\ (forall e, chat prompt = Raise e ->
        synthesize_workflow chat json_loads prompt
        = Return (JDict [ ("steps", JList []);
                          ("data_sufficiency", JStr "unknown");
                          ("missing_data", JList []);
                          ("alternatives", JStr "Manual workflow design needed") ]))
  /\ (forall response, chat prompt = Return response ->
        exists payload,
          extract_json (strip response) = Return payload
          /\ (forall e, json_loads payload = Raise e ->
                synthesize_workflow chat json_loads prompt
                = Return (JDict [ ("steps", JList []);
                                  ("data_sufficiency", JStr "unknown");
                                  ("missing_data", JList []);
                                  ("alternatives",
                                   JStr "Manual workflow design needed") ]))
          /\ (forall w, json_loads payload = Return w ->
                synthesize_workflow chat json_loads prompt = Return w))
  /\ (forall p b rest,
        contains backquote p = false ->
        contains backquote b = false ->
        contains backquote rest = false ->
        extract_json (p ++ fence_json ++ b ++ fence ++ rest) = Return (strip b))
  /\ (forall p b rest,
        contains backquote p = false ->
        contains backquote b = false ->
        contains fence_json (p ++ fence ++ b ++ fence ++ rest) = false ->
        extract_json (p ++ fence ++ b ++ fence ++ rest) = Return (strip b))
  /\ (forall content,
        contains fence content = false -> extract_json content = Return content).
Proof.
  split; [|split; [|split; [|split; [|split]]]].
  - unfold synthesize_workflow, try_except.
    match goal with |- exists w, match ?body with _ => _ end = _ =>
      destruct body end; eauto.
  - intros e H. unfold synthesize_workflow. rewrite H. reflexivity.
  - intros response H.
    destruct (extract_json_total (strip response)) as [payload Hp].
    exists payload. split; [exact Hp|].
    unfold synthesize_workflow. rewrite H. cbn [bind]. rewrite Hp. cbn [bind].
    split; intros x Hx; rewrite Hx; reflexivity.
  - exact extract_json_json_fence.
  - exact extract_json_plain_fence.
  - exact extract_json_unfenced.
Qed.

Lemma workflow_synthesis_falls_back_witness :
  synthesize_workflow (failing_chat (ClientError "timeout")) sample_loads "prompt"
  = Return fallback_workflow
  /\ synthesize_workflow (constant_chat "```json{}```") sample_loads "prompt"
     = Return (JDict [])
  /\ extract_json ("Here is the plan: " ++ fence_json ++ " {} " ++ fence ++ " Done.")
     = Return "{}".
Proof.
  split; [|split].
  - exact (proj1 (proj2 (workflow_synthesis_falls_back
                           (failing_chat (ClientError "timeout")) sample_loads
                           "prompt"))
             (ClientError "timeout") eq_refl).
  - destruct (proj1 (proj2 (proj2 (workflow_synthesis_falls_back
                                     (constant_chat "```json{}```") sample_loads
                                     "prompt")))
                "```json{}```" eq_refl) as [payload [Hp [_ Hok]]].
    apply Hok. injection Hp as <-. reflexivity.
  - exact (proj1 (proj2 (proj2 (proj2 (workflow_synthesis_falls_back
                                         (constant_chat "") sample_loads "prompt"))))
             "Here is the plan: " " {} " " Done." eq_refl eq_refl eq_refl).
Defined.

Lemma eq_str_sufficient (items : list (string * json)) :
  eq_str (get (lookup "data_sufficiency" items) JNull) "sufficient" = true
  <-> lookup "data_sufficiency" items = Some (JStr "sufficient").
Proof.
  destruct (lookup "data_sufficiency" items) as [v|]; simpl.
  - destruct v; simpl; try (split; [discriminate | intros H; discriminate H]).
    rewrite String.eqb_eq. split; [now intros -> | now intros [= ->]].
  - split; discriminate.
Qed.

(** C6: for every workflow object the specification is assembled, and its
    [can_complete] is true exactly when the object's [data_sufficiency] is the
    string [sufficient]; a missing key and every other value give false.  A
    specification that [_generate_analysis_spec] returns was assembled from
    such an object. *)
Theorem can_complete_iff_sufficient
  (chat : string -> result string) (json_loads : string -> result json)
  (json_dumps : list AvailableDataset -> string) (now : string)
  (original_query : string) (parsed : ParsedIntent) (ctx : ActivatedContext)
  (relevant_data : list RankedDataset) :
  (forall items,
      exists spec,
        assemble now original_query parsed ctx relevant_data (JDict items)
        = Return spec
        /\ (can_complete (sufficiency_check spec) = true
            <-> lookup "data_sufficiency" items = Some (JStr "sufficient")))
  /\ (forall spec,
        _generate_analysis_spec chat json_loads json_dumps now original_query
          parsed ctx relevant_data
        = Return spec ->
        exists items,
          synthesize_workflow chat json_loads
            (workflow_prompt json_dumps original_query parsed ctx relevant_data)
          = Return (JDict items)
          /\ (can_complete (sufficiency_check spec) = true
              <-> lookup "data_sufficiency" items = Some (JStr "sufficient"))).
Proof.
  split.
  - intros items. eexists. split; [reflexivity|].
    cbn [sufficiency_check can_complete]. apply eq_str_sufficient.
  - intros spec H. unfold _generate_analysis_spec in H.
    destruct (synthesize_workflow chat json_loads
                (workflow_prompt json_dumps original_query parsed ctx relevant_data))
      as [w|e]; [|discriminate H].
    cbn [bind] in H.
    destruct w as [| | | | | |items]; try discriminate H.
    exists items. split; [reflexivity|].
    injection H as <-. cbn [sufficiency_check can_complete].
    apply eq_str_sufficient.
Qed.

Lemma can_complete_iff_sufficient_witness :
  exists spec,
    _generate_analysis_spec (constant_chat "```json{sufficient}```") sample_loads
      sample_dumps "2024-01-01T00:00:00" "Find parks" (initial_parsed "Find parks")
      empty_context []
    = Return spec
    /\ can_complete (sufficiency_check spec) = true.
Proof.
  eexists. split; [reflexivity|].
  destruct (proj2 (can_complete_iff_sufficient
                     (constant_chat "```json{sufficient}```") sample_loads
                     sample_dumps "2024-01-01T00:00:00" "Find parks"
                     (initial_parsed "Find parks") empty_context [])
              _ eq_refl) as [items [Hw Hiff]].
  apply Hiff. injection Hw as <-. reflexivity.
Defined.

(* ================================================================== *)
(** * Further properties of the ranking *)

Lemma fold_left_fixed {S X : Type} (step : S -> X -> S) (st : S) (l : list X) :
  (forall x, In x l -> step st x = st) -> fold_left step l st = st.
Proof.
  induction l as [|x l IH]; intros H; simpl; [reflexivity|].
  rewrite (H x (or_introl eq_refl)). apply IH. intros y Hy. apply H. now right.
Qed.

Lemma score_without_terms (pq : ParsedIntent) (d : Dataset) :
  concepts pq = [] -> entities pq = [] -> score_of pq d = (0, []).
Proof.
  intros Hc He. unfold score_of, score_dataset, score_semantic_geometry.
  rewrite Hc, He. simpl. apply fold_left_fixed. intros t _. reflexivity.
Qed.

Lemma search_without_terms (kb : list Dataset) (pq : ParsedIntent) :
  concepts pq = [] -> entities pq = [] -> _search_knowledge_base kb pq = [].
Proof.
  intros Hc He. rewrite search_unfold.
  assert (E : filter (fun d => 0 <? fst (score_of pq d)) kb = []).
  { induction kb as [|d kb IH]; [reflexivity|]. simpl.
    now rewrite (score_without_terms pq d Hc He). }
  now rewrite E.
Qed.

(** X1: a parsed intent with no concepts and no entities retrieves nothing,
    whatever the knowledge base holds; every dataset then scores 0 with no
    reason. *)
Theorem no_terms_no_results (kb : list Dataset) (pq : ParsedIntent) :
  concepts pq = [] -> entities pq = [] ->
  _search_knowledge_base kb pq = []
  /\ forall d, score_of pq d = (0, []).
Proof.
  intros Hc He. split; [now apply search_without_terms|].
  intros d. now apply score_without_terms.
Qed.

Lemma no_terms_no_results_witness :
  _search_knowledge_base [parcels_dataset; bare_dataset]
    (degraded_parsed "Land use of parcels")
  = [].
Proof.
  exact (proj1 (no_terms_no_results [parcels_dataset; bare_dataset]
                  (degraded_parsed "Land use of parcels") eq_refl eq_refl)).
Defined.

Lemma fold_left_score_le {X : Type} (step : Scoring -> X -> Scoring) (k : Z) :
  (forall st x, fst (step st x) <= fst st + k) ->
  forall l st, fst (fold_left step l st) <= fst st + k * Z.of_nat (length l).
Proof.
  intros Hstep l. induction l as [|x l IH]; intros st; [simpl; lia|].
  cbn [fold_left length]. specialize (IH (step st x)). specialize (Hstep st x).
  lia.
Qed.

Lemma fold_left_reasons_le {X : Type} (step : Scoring -> X -> Scoring) :
  (forall st x, (length (snd (step st x)) <= S (length (snd st)))%nat) ->
  forall l st,
    (length (snd (fold_left step l st)) <= length (snd st) + length l)%nat.
Proof.
  intros Hstep l. induction l as [|x l IH]; intros st; [simpl; lia|].
  cbn [fold_left length]. specialize (IH (step st x)). specialize (Hstep st x).
  lia.
Qed.

Lemma contribute_reasons n reason st :
  length (snd (contribute n reason st)) = S (length (snd st)).
Proof. unfold contribute. cbn [snd]. rewrite length_app. simpl. lia. Qed.

(** The four loops of one dataset, over the texts read off it. *)
Lemma score_of_unfold (pq : ParsedIntent) (d : Dataset) :
  score_of pq d
  = fold_left (task_step (map lower (concepts pq))) (task_list d)
      (fold_left (geometry_step (lower (geometry_text d)))
         (map lower (entities pq))
         (fold_left (entity_step (lower (represents_text d)))
            (map lower (entities pq))
            (fold_left
               (concept_step (lower (domain_text d)) (lower (represents_text d)))
               (map lower (concepts pq)) (0, [])))).
Proof. reflexivity. Qed.

(** X2: the score of a dataset is at most two points per concept, three per
    entity (two for the semantic match, one for the geometry match) and one
    per capable task; the reasons number at most one per concept, two per
    entity and one per task. *)
Theorem score_upper_bound (pq : ParsedIntent) (d : Dataset) :
  fst (score_of pq d)
  <= 2 * Z.of_nat (length (concepts pq)) + 3 * Z.of_nat (length (entities pq))
     + Z.of_nat (length (task_list d))
  /\ (length (snd (score_of pq d))
      <= length (concepts pq) + 2 * length (entities pq) + length (task_list d))%nat.
Proof.
  rewrite score_of_unfold.
  set (cs := map lower (concepts pq)). set (es := map lower (entities pq)).
  assert (Lc : length cs = length (concepts pq)) by apply length_map.
  assert (Le : length es = length (entities pq)) by apply length_map.
  set (dom := lower (domain_text d)). set (rep := lower (represents_text d)).
  set (geo := lower (geometry_text d)).
  set (s1 := fold_left (concept_step dom rep) cs (0, [])).
  set (s2 := fold_left (entity_step rep) es s1).
  set (s3 := fold_left (geometry_step geo) es s2).
  split.
  - assert (H1 : fst s1 <= 0 + 2 * Z.of_nat (length cs)).
    { apply (fold_left_score_le (concept_step dom rep) 2). intros st c.
      unfold concept_step. destruct (_ || _)%bool; simpl; lia. }
    assert (H2 : fst s2 <= fst s1 + 2 * Z.of_nat (length es)).
    { apply (fold_left_score_le (entity_step rep) 2). intros st e.
      unfold entity_step. destruct (contains e rep); simpl; lia. }
    assert (H3 : fst s3 <= fst s2 + 1 * Z.of_nat (length es)).
    { apply (fold_left_score_le (geometry_step geo) 1). intros st e.
      unfold geometry_step. destruct (_ && _)%bool; simpl; [lia|].
      destruct (_ && _)%bool; simpl; lia. }
    pose proof (fold_left_score_le (task_step cs) 1) as H4.
    specialize (H4 (fun st t => ltac:(unfold task_step;
                      destruct (existsb _ cs); simpl; lia))
                   (task_list d) s3).
    lia.
  - assert (H1 : (length (snd s1) <= 0 + length cs)%nat).
    { apply (fold_left_reasons_le (concept_step dom rep)). intros st c.
      unfold concept_step. destruct (_ || _)%bool;
        [rewrite contribute_reasons|]; lia. }
    assert (H2 : (length (snd s2) <= length (snd s1) + length es)%nat).
    { apply (fold_left_reasons_le (entity_step rep)). intros st e.
      unfold entity_step. destruct (contains e rep);
        [rewrite contribute_reasons|]; lia. }
    assert (H3 : (length (snd s3) <= length (snd s2) + length es)%nat).
    { apply (fold_left_reasons_le (geometry_step geo)). intros st e.
      unfold geometry_step. destruct (_ && _)%bool;
        [rewrite contribute_reasons; lia|].
      destruct (_ && _)%bool; [rewrite contribute_reasons|]; lia. }
    pose proof (fold_left_reasons_le (task_step cs)) as H4.
    specialize (H4 (fun st t => ltac:(unfold task_step;
                      destruct (existsb _ cs);
                      [rewrite contribute_reasons|]; lia))
                   (task_list d) s3).
    lia.
Qed.

Lemma entity_loop_hit rep (e : string) (es : list string) (st : Scoring) :
  In e es -> contains e rep = true ->
  fst st + 2 <= fst (fold_left (entity_step rep) es st).
Proof.
  revert st. induction es as [|e' es IH]; intros st Hin He; [destruct Hin|].
  simpl. destruct Hin as [-> | Hin].
  - eapply Z.le_trans; [|apply fold_left_score_mono, entity_step_mono].
    unfold entity_step. rewrite He. simpl. lia.
  - specialize (IH (entity_step rep st e') Hin He).
    pose proof (entity_step_mono rep st e'). lia.
Qed.

Lemma semantic_hit_scores_two (pq : ParsedIntent) (d : Dataset) :
  (exists c, In c (concepts pq)
             /\ (contains (lower c) (lower (domain_text d))
                 || contains (lower c) (lower (represents_text d)))%bool = true)
  \/ (exists e, In e (entities pq)
                /\ contains (lower e) (lower (represents_text d)) = true) ->
  2 <= fst (score_of pq d).
Proof.
  intros H. rewrite score_of_unfold.
  eapply Z.le_trans; [|apply fold_left_score_mono, task_step_mono].
  eapply Z.le_trans; [|apply fold_left_score_mono, geometry_step_mono].
  destruct H as [[c [Hin Hc]] | [e [Hin He]]].
  - eapply Z.le_trans; [|apply fold_left_score_mono, entity_step_mono].
    change 2 with (fst ((0, []) : Scoring) + 2).
    apply concept_loop_hit with (c := lower c); [now apply in_map | exact Hc].
  - eapply Z.le_trans;
      [|apply entity_loop_hit with (e := lower e); [now apply in_map | exact He]].
    pose proof (fold_left_score_mono
                  (concept_step (lower (domain_text d)) (lower (represents_text d)))
                  (concept_step_mono _ _) (map lower (concepts pq)) (0, [])) as Hm.
    simpl fst in Hm at 1. lia.
Qed.

(** X3: a dataset of the knowledge base is returned, with a score of at
    least 2, as soon as one concept occurs in its domain or in what it
    represents, or one entity occurs in what it represents, case ignored. *)
Theorem semantic_match_is_returned (kb : list Dataset) (pq : ParsedIntent)
  (d : Dataset) :
  In d kb ->
  (exists c, In c (concepts pq)
             /\ (contains (lower c) (lower (domain_text d))
                 || contains (lower c) (lower (represents_text d)))%bool = true)
  \/ (exists e, In e (entities pq)
                /\ contains (lower e) (lower (represents_text d)) = true) ->
  In (ranked pq d) (_search_knowledge_base kb pq)
  /\ 2 <= relevance_score (ranked pq d).
Proof.
  intros Hd H. pose proof (semantic_hit_scores_two pq d H) as Hs.
  split; [|exact Hs].
  apply search_In. exists d. repeat split; [exact Hd | lia].
Qed.

Lemma semantic_match_is_returned_witness :
  In (ranked parcels_intent parcels_dataset)
     (_search_knowledge_base [bare_dataset; parcels_dataset] parcels_intent)
  /\ 2 <= relevance_score (ranked parcels_intent parcels_dataset).
Proof.
  apply (semantic_match_is_returned [bare_dataset; parcels_dataset]
           parcels_intent parcels_dataset).
  - right. left. reflexivity.
  - left. exists "Land use". split; [left; reflexivity | reflexivity].
Defined.

Lemma Permutation_filter_same {A : Type} (f : A -> bool) (l l' : list A) :
  Permutation l l' -> Permutation (filter f l) (filter f l').
Proof.
  induction 1 as [|x l l' _ IH|x y l|l l' l'' _ IH1 _ IH2]; simpl.
  - constructor.
  - destruct (f x); [now constructor | exact IH].
  - destruct (f x), (f y); try apply Permutation_refl. apply perm_swap.
  - now apply perm_trans with (filter f l').
Qed.

Lemma descending_unique (l l' : list Z) :
  StronglySorted (fun a b => b <= a) l ->
  StronglySorted (fun a b => b <= a) l' ->
  Permutation l l' -> l = l'.
Proof.
  revert l'. induction l as [|x l IH]; intros l' S1 S2 P.
  - apply Permutation_nil in P. now subst.
  - destruct l' as [|y l'];
      [apply Permutation_sym, Permutation_nil in P; discriminate|].
    apply StronglySorted_inv in S1, S2.
    destruct S1 as [S1 F1], S2 as [S2 F2]. rewrite Forall_forall in F1, F2.
    assert (E : x = y).
    { assert (Hy : In y (x :: l))
        by (apply (Permutation_in _ (Permutation_sym P)); now left).
      assert (Hx : In x (y :: l')) by (apply (Permutation_in _ P); now left).
      destruct Hy as [Hy | Hy]; [exact Hy|].
      destruct Hx as [Hx | Hx]; [exact (eq_sym Hx)|].
      specialize (F1 y Hy). specialize (F2 x Hx). lia. }
    subst y. f_equal. apply IH; try assumption.
    now apply Permutation_cons_inv with (a := x).
Qed.

Lemma scores_descending (l : list RankedDataset) :
  StronglySorted score_ge l ->
  StronglySorted (fun a b => b <= a) (map relevance_score l).
Proof.
  induction 1 as [|x l _ IH F]; simpl; constructor; [exact IH|].
  rewrite Forall_forall in *. intros s Hs. apply in_map_iff in Hs.
  destruct Hs as [r [<- Hr]]. exact (F r Hr).
Qed.

Lemma search_sorted (kb : list Dataset) (pq : ParsedIntent) :
  StronglySorted score_ge (_search_knowledge_base kb pq).
Proof. rewrite search_unfold. apply sort_desc_sorted. Qed.

(** X4: the order in which the knowledge base lists its datasets decides
    nothing but ties: two knowledge bases with the same datasets give the
    same entries, and the same sequence of scores. *)
Theorem ranking_ignores_listing_order (kb kb' : list Dataset) (pq : ParsedIntent) :
  Permutation kb kb' ->
  Permutation (_search_knowledge_base kb pq) (_search_knowledge_base kb' pq)
  /\ map relevance_score (_search_knowledge_base kb pq)
     = map relevance_score (_search_knowledge_base kb' pq).
Proof.
  intros H.
  assert (P : Permutation (_search_knowledge_base kb pq)
                (_search_knowledge_base kb' pq)).
  { eapply perm_trans; [apply search_perm|].
    eapply perm_trans; [|apply Permutation_sym, search_perm].
    apply Permutation_map, Permutation_filter_same, H. }
  split; [exact P|].
  apply descending_unique.
  - apply scores_descending, search_sorted.
  - apply scores_descending, search_sorted.
  - now apply Permutation_map.
Qed.

Lemma ranking_ignores_listing_order_witness :
  map relevance_score
    (_search_knowledge_base [bare_dataset; parcels_dataset] parcels_intent)
  = map relevance_score
      (_search_knowledge_base [parcels_dataset; bare_dataset] parcels_intent).
Proof.
  exact (proj2 (ranking_ignores_listing_order [bare_dataset; parcels_dataset]
                  [parcels_dataset; bare_dataset] parcels_intent
                  (perm_swap _ _ _))).
Defined.

Lemma sort_desc_fixed (l : list RankedDataset) :
  StronglySorted score_ge l -> sort_desc l = l.
Proof.
  induction 1 as [|x l _ IH F]; [reflexivity|].
  simpl. rewrite IH. destruct l as [|y l]; [reflexivity|].
  simpl. apply Forall_inv in F. unfold score_ge in F.
  destruct (relevance_score x <? relevance_score y) eqn:E; [|reflexivity].
  apply Z.ltb_lt in E. lia.
Qed.

(** X5: ranking is idempotent: ranking the datasets of an output again,
    for the same intent, gives that output back, entry by entry and in the
    same order. *)
Theorem ranking_is_idempotent (kb : list Dataset) (pq : ParsedIntent) :
  _search_knowledge_base (map dataset (_search_knowledge_base kb pq)) pq
  = _search_knowledge_base kb pq.
Proof.
  rewrite (search_unfold (map dataset _)).
  assert (Hall : forall r, In r (_search_knowledge_base kb pq) ->
                   0 < fst (score_of pq (dataset r)) /\ ranked pq (dataset r) = r).
  { intros r Hr. apply search_In in Hr. destruct Hr as [d [_ [Hp ->]]].
    split; [exact Hp | reflexivity]. }
  pose proof (search_sorted kb pq) as Hs.
  revert Hall Hs. generalize (_search_knowledge_base kb pq) as out.
  intros out Hall Hs.
  assert (E : map (ranked pq)
                (filter (fun d => 0 <? fst (score_of pq d)) (map dataset out))
              = out).
  { clear Hs. induction out as [|r out IH]; [reflexivity|].
    simpl. destruct (Hall r (or_introl eq_refl)) as [Hp Hr].
    apply Z.ltb_lt in Hp. rewrite Hp. simpl. rewrite Hr. f_equal.
    apply IH. intros r' Hr'. apply Hall. now right. }
  rewrite E. now apply sort_desc_fixed.
Qed.

(** X6: the first entry of the output carries the largest score of the
    whole knowledge base, and the output is empty exactly when no dataset
    scores above zero. *)
Theorem first_entry_scores_highest (kb : list Dataset) (pq : ParsedIntent) :
  (forall r rest, _search_knowledge_base kb pq = r :: rest ->
     forall d, In d kb -> fst (score_of pq d) <= relevance_score r)
  /\ (_search_knowledge_base kb pq = []
      <-> forall d, In d kb -> fst (score_of pq d) <= 0).
Proof.
  split.
  - intros r rest E d Hd.
    assert (Hr : In r (_search_knowledge_base kb pq)) by (rewrite E; now left).
    apply search_In in Hr. destruct Hr as [d0 [_ [Hp0 Hr]]].
    destruct (Z.ltb_spec 0 (fst (score_of pq d))) as [Hp | Hn].
    + assert (Hin : In (ranked pq d) (_search_knowledge_base kb pq))
        by (apply search_In; now exists d).
      pose proof (search_sorted kb pq) as Hs. rewrite E in Hs, Hin.
      apply StronglySorted_inv in Hs. destruct Hs as [_ F].
      rewrite Forall_forall in F.
      destruct Hin as [Heq | Hin]; [rewrite Heq; simpl; lia|].
      exact (F _ Hin).
    + subst r. simpl. lia.
  - split.
    + intros E d Hd.
      destruct (Z.ltb_spec 0 (fst (score_of pq d))) as [Hp | Hn]; [|exact Hn].
      assert (Hin : In (ranked pq d) (_search_knowledge_base kb pq))
        by (apply search_In; now exists d).
      rewrite E in Hin. destruct Hin.
    + intros H.
      destruct (_search_knowledge_base kb pq) as [|r rest] eqn:E; [reflexivity|].
      assert (Hr : In r (_search_knowledge_base kb pq)) by (rewrite E; now left).
      apply search_In in Hr. destruct Hr as [d [Hd [Hp _]]].
      specialize (H d Hd). lia.
Qed.

(* ================================================================== *)
(** * Further properties of [_parse_query] *)

Lemma prefix_contains (p s : string) :
  String.prefix p s = true -> contains p s = true.
Proof. intros H. rewrite contains_unfold, H. reflexivity. Qed.

(** The look-up after a marker is defined on a line that starts with it. *)
Lemma after_marker_defined (line marker : string) :
  startswith line marker = true -> marker <> "" ->
  exists rest, after_marker line marker = Return rest.
Proof.
  intros H Hm. unfold after_marker, split, item.
  destruct (split_go_present marker line "" (prefix_contains _ _ H) Hm)
    as [x [y [l E]]].
  rewrite E. simpl. eauto.
Qed.

Lemma parse_line_cases (parsed : ParsedIntent) (raw_line : string) :
  exists p',
    parse_line parsed raw_line = Return p'
    /\ (p' = parsed
        \/ (exists rest, p' = set_concepts parsed (map strip (split rest ",")))
        \/ (exists rest, p' = set_entities parsed (map strip (split rest ",")))
        \/ (exists rest, p' = set_filters parsed (map strip (split rest ",")))
        \/ (exists rest, p' = set_spatial_relationships parsed [strip rest])
        \/ (exists rest, p' = set_intent parsed (strip rest))).
Proof.
  unfold parse_line.
  repeat match goal with
  | |- context [if startswith ?l ?m then _ else _] =>
      let E := fresh "E" in
      destruct (startswith l m) eqn:E;
      [ destruct (after_marker_defined l m E ltac:(discriminate)) as [rest ->];
        cbn [bind]; eexists; split; [reflexivity|]; eauto 10 | ]
  end.
  eexists; split; [reflexivity | now left].
Qed.

Lemma for_each_invariant {S X : Type} (P : S -> Prop) (step : S -> X -> result S) :
  (forall st x, P st -> exists st', step st x = Return st' /\ P st') ->
  forall xs st, P st -> exists st', for_each step xs st = Return st' /\ P st'.
Proof.
  intros Hstep xs. induction xs as [|x xs IH]; intros st Hst; simpl; [eauto|].
  destruct (Hstep st x Hst) as [st' [-> Hst']]. simpl. now apply IH.
Qed.

Lemma head_not_space_lstrip (s : string) : head_not_space (lstrip s).
Proof.
  induction s as [|c s IH]; simpl; [exact I|].
  destruct (is_space c) eqn:E; [exact IH | exact E].
Qed.

Lemma lstrip_fixed (s : string) : head_not_space s -> lstrip s = s.
Proof. destruct s as [|c s]; simpl; [reflexivity | now intros ->]. Qed.

Lemma head_not_space_rstrip (s : string) :
  head_not_space s -> head_not_space (rstrip s).
Proof.
  destruct s as [|c s]; simpl; [trivial|]. intros H.
  destruct (rstrip s); [rewrite H|]; exact H.
Qed.

Lemma rstrip_idempotent (s : string) : rstrip (rstrip s) = rstrip s.
Proof.
  induction s as [|c s IH]; [reflexivity|].
  simpl. destruct (rstrip s) as [|c' r] eqn:E.
  - destruct (is_space c) eqn:Ec; [reflexivity|]. simpl. now rewrite Ec.
  - change (rstrip (String c (String c' r)))
      with (match rstrip (String c' r) with
            | EmptyString => if is_space c then EmptyString else String c EmptyString
            | r0 => String c r0
            end).
    now rewrite IH.
Qed.

Lemma strip_idempotent (s : string) : strip (strip s) = strip s.
Proof.
  unfold strip.
  rewrite (lstrip_fixed (rstrip (lstrip s))).
  - apply rstrip_idempotent.
  - apply head_not_space_rstrip, head_not_space_lstrip.
Qed.

Lemma Forall_stripped_map (l : list string) :
  Forall (fun x => strip x = x) (map strip l).
Proof.
  apply Forall_forall. intros x Hx. apply in_map_iff in Hx.
  destruct Hx as [y [<- _]]. apply strip_idempotent.
Qed.

Lemma parse_line_ok (query : string) (parsed : ParsedIntent) (raw_line : string) :
  parsed_ok query parsed ->
  exists p', parse_line parsed raw_line = Return p' /\ parsed_ok query p'.
Proof.
  intros [Hq [Hs [Hc [He [Hf Hsp]]]]].
  destruct (parse_line_cases parsed raw_line) as [p' [E Hcases]].
  exists p'. split; [exact E|]. unfold parsed_ok.
  destruct Hcases as [-> | [[rest ->] | [[rest ->] | [[rest ->] | [[rest ->] | [rest ->]]]]]];
    cbn [original_query concepts entities filters spatial_relationships intent
         set_concepts set_entities set_filters set_spatial_relationships set_intent
         length];
    repeat split; try assumption; try apply Forall_stripped_map; try lia.
  repeat constructor. apply strip_idempotent.
Qed.

Lemma parse_query_ok (chat : string -> result string) (query : string) :
  exists p, _parse_query chat query = Return p /\ parsed_ok query p.
Proof.
  unfold _parse_query.
  destruct (chat (parse_prompt query)) as [content | e]; cbn [bind].
  - destruct (for_each_invariant (parsed_ok query) parse_line
                (parse_line_ok query) (split content newline) (initial_parsed query))
      as [p [E Hp]].
    + unfold parsed_ok, initial_parsed. simpl. repeat split; auto.
    + exists p. unfold parse_response. rewrite E. split; [reflexivity | exact Hp].
  - eexists. split; [reflexivity|].
    unfold parsed_ok, degraded_parsed. simpl. repeat split; auto.
Qed.

(** X7: reading the response text never raises: the piece after a marker is
    only taken from a line that starts with the marker.  So when the client
    answers, the result of [_parse_query] is read off the response, and the
    handler runs only when the client call itself fails. *)
Theorem response_parsing_never_raises (query content : string) :
  (exists p, parse_response query content = Return p)
  /\ (forall chat, chat (parse_prompt query) = Return content ->
        _parse_query chat query = parse_response query content).
Proof.
  assert (Htotal : exists p, parse_response query content = Return p).
  { destruct (for_each_invariant (fun _ => True) parse_line) with
      (xs := split content newline) (st := initial_parsed query)
      as [p [E _]]; [|exact I|].
    - intros st x _. destruct (parse_line_cases st x) as [p' [E _]]. eauto.
    - exists p. exact E. }
  split; [exact Htotal|].
  intros chat H. unfold _parse_query. rewrite H. cbn [bind].
  destruct Htotal as [p ->]. reflexivity.
Qed.

(** X8: whatever the client does, the parsed intent carries the query
    verbatim as [original_query] and at most one spatial relationship. *)
Theorem parsed_intent_keeps_query (chat : string -> result string) (query : string) :
  exists p,
    _parse_query chat query = Return p
    /\ original_query p = query
    /\ (length (spatial_relationships p) <= 1)%nat.
Proof.
  destruct (parse_query_ok chat query) as [p [E [Hq [Hs _]]]].
  exists p. auto.
Qed.

(** X9: no concept, entity, filter or spatial relationship of a parsed
    intent has leading or trailing whitespace. *)
Theorem parsed_items_are_stripped (chat : string -> result string) (query : string) :
  exists p,
    _parse_query chat query = Return p
    /\ Forall (fun x => strip x = x) (concepts p)
    /\ Forall (fun x => strip x = x) (entities p)
    /\ Forall (fun x => strip x = x) (filters p)
    /\ Forall (fun x => strip x = x) (spatial_relationships p).
Proof.
  destruct (parse_query_ok chat query) as [p [E [_ [_ H]]]].
  exists p. auto.
Qed.

(** ** A response in the requested format is read back *)

Lemma prefix_char (q c : ascii) (s : string) :
  String.prefix (String q "") (String c s) = if ascii_dec q c then true else false.
Proof. simpl. destruct (ascii_dec q c); [apply prefix_nil | reflexivity]. Qed.

Lemma contains_char_append (q : ascii) (a b : string) :
  contains (String q "") (a ++ b)
  = (contains (String q "") a || contains (String q "") b)%bool.
Proof.
  induction a as [|c a IH]; [reflexivity|].
  change (String c a ++ b) with (String c (a ++ b)).
  rewrite (contains_unfold _ (String c (a ++ b))), (contains_unfold _ (String c a)).
  rewrite !prefix_char, IH. now rewrite orb_assoc.
Qed.

Lemma contains_shorter (a b s : string) :
  contains b s = false -> contains (a ++ b) s = false.
Proof.
  intros H. destruct (contains (a ++ b) s) eqn:E; [|reflexivity].
  apply contains_occurs in E. destruct E as [u [v ->]].
  rewrite occurs_contains in H; [discriminate|].
  exists (u ++ a), v. now rewrite !append_assoc.
Qed.

Lemma rstrip_append (a b : string) :
  rstrip b <> "" -> rstrip (a ++ b) = a ++ rstrip b.
Proof.
  intros H. induction a as [|c a IH]; [reflexivity|].
  change (rstrip (String c a ++ b))
    with (match rstrip (a ++ b) with
          | EmptyString => if is_space c then EmptyString else String c EmptyString
          | r => String c r
          end).
  rewrite IH. change (String c a ++ rstrip b) with (String c (a ++ rstrip b)).
  destruct (a ++ rstrip b) eqn:E; [|reflexivity].
  destruct a; simpl in E; [contradiction | discriminate].
Qed.

Lemma stripped_rstrip (x : string) : strip x = x -> rstrip x = x.
Proof. intros H. rewrite <- H at 1. unfold strip. rewrite rstrip_idempotent. exact H. Qed.

Lemma stripped_lstrip (x : string) : strip x = x -> lstrip x = x.
Proof.
  intros H. apply lstrip_fixed. rewrite <- H. unfold strip.
  apply head_not_space_rstrip, head_not_space_lstrip.
Qed.

Lemma strip_after_space (x : string) : strip x = x -> strip (" " ++ x) = x.
Proof. intros H. unfold strip. simpl lstrip. exact H. Qed.

Lemma plain_text_facts (x : string) :
  plain_text x = true ->
  x <> "" /\ strip x = x /\ contains ":" x = false /\ contains newline x = false.
Proof.
  unfold plain_text. rewrite !andb_true_iff, !negb_true_iff.
  intros [[[H1 H2] H3] H4]. repeat split; try assumption.
  - now apply String.eqb_neq.
  - now apply String.eqb_eq.
Qed.

Lemma plain_item_facts (x : string) :
  plain_item x = true -> plain_text x = true /\ contains "," x = false.
Proof.
  unfold plain_item. rewrite andb_true_iff, negb_true_iff. tauto.
Qed.

Lemma join_cons (sep x y : string) (l : list string) :
  join sep (x :: y :: l) = x ++ sep ++ join sep (y :: l).
Proof. reflexivity. Qed.

(** A joined list of plain items is free of a character that neither the
    items nor the separator hold. *)
Lemma join_free (q : ascii) (sep : string) (xs : list string) :
  contains (String q "") sep = false ->
  (forall x, In x xs -> contains (String q "") x = false) ->
  contains (String q "") (join sep xs) = false.
Proof.
  intros Hsep. induction xs as [|x xs IH]; intros H; [reflexivity|].
  destruct xs as [|y xs]; [apply H; now left|].
  rewrite join_cons, !contains_char_append, Hsep, (H x (or_introl eq_refl)).
  simpl. apply IH. intros z Hz. apply H. now right.
Qed.

Lemma join_rstrip (sep : string) (xs : list string) :
  xs <> [] ->
  (forall x, In x xs -> x <> "" /\ strip x = x) ->
  rstrip (join sep xs) = join sep xs /\ join sep xs <> "".
Proof.
  induction xs as [|x xs IH]; intros Hne H; [contradiction|].
  destruct xs as [|y xs].
  - destruct (H x (or_introl eq_refl)) as [Hx Hs].
    split; [now apply stripped_rstrip | exact Hx].
  - destruct IH as [IH1 IH2]; [discriminate | intros z Hz; apply H; now right|].
    rewrite join_cons, <- append_assoc. split.
    + rewrite rstrip_append; rewrite IH1; [reflexivity | exact IH2].
    + intros E. destruct (x ++ sep); simpl in E; [contradiction | discriminate].
Qed.

(** Splitting a joined list at the first character of the separator gives
    the items back, each but the first led by the rest of the separator. *)
Lemma split_join (q : ascii) (pad : string) (x : string) (xs : list string) :
  (forall y, In y (x :: xs) -> contains (String q "") y = false) ->
  contains (String q "") pad = false ->
  split (join (String q pad) (x :: xs)) (String q "")
  = x :: map (fun y => pad ++ y) xs.
Proof.
  intros H Hpad. revert x H. induction xs as [|y xs IH]; intros x H.
  - simpl join. rewrite split_absent; [reflexivity | apply H; now left].
  - rewrite join_cons.
    change (x ++ String q pad ++ join (String q pad) (y :: xs))
      with (x ++ String q "" ++ (pad ++ join (String q pad) (y :: xs))).
    rewrite split_first by (apply H; now left).
    f_equal.
    assert (E : pad ++ join (String q pad) (y :: xs)
                = join (String q pad) ((pad ++ y) :: xs)).
    { destruct xs; simpl; [reflexivity | now rewrite append_assoc]. }
    rewrite E, IH; [reflexivity|].
    intros z [<- | Hz].
    + rewrite contains_char_append, Hpad. apply H. right. now left.
    + apply H. right. now right.
Qed.

Lemma items_read_back (xs : list string) :
  xs <> [] -> forallb plain_item xs = true ->
  map strip (split (" " ++ join ", " xs) ",") = xs.
Proof.
  intros Hne H. destruct xs as [|x xs]; [contradiction|].
  rewrite forallb_forall in H.
  assert (Hc : forall y, In y (x :: xs) -> contains "," y = false)
    by (intros y Hy; now apply plain_item_facts, H).
  assert (Hs : forall y, In y (x :: xs) -> strip y = y).
  { intros y Hy. apply H, plain_item_facts in Hy. destruct Hy as [Hy _].
    now apply plain_text_facts in Hy. }
  assert (E : " " ++ join ", " (x :: xs) = join ", " ((" " ++ x) :: xs)).
  { destruct xs; reflexivity. }
  rewrite E. rewrite (split_join ","%char " " (" " ++ x) xs).
  - cbn [map]. rewrite (strip_after_space x) by (apply Hs; now left).
    f_equal. rewrite map_map.
    rewrite <- (map_id xs) at 2. apply map_ext_in. intros y Hy.
    apply strip_after_space, Hs. now right.
  - intros y [<- | Hy]; [|apply Hc; now right].
    change (" " ++ x) with (String " " x).
    rewrite contains_unfold, prefix_char. simpl. apply Hc. now left.
  - reflexivity.
Qed.

(** The piece after a marker at the start of a line. *)
Lemma after_marker_at_start (q : ascii) (m rest : string) :
  contains (String q m) rest = false ->
  after_marker (String q m ++ rest) (String q m) = Return rest.
Proof.
  intros H. unfold after_marker.
  change (String q m ++ rest) with ("" ++ String q m ++ rest).
  rewrite split_first by reflexivity.
  now rewrite (split_absent _ rest H).
Qed.

(** A marker line is unchanged by [strip] when its body is. *)
Lemma marker_line_stripped (q : ascii) (m body : string) :
  is_space q = false -> rstrip body = body -> body <> "" ->
  strip (String q m ++ body) = String q m ++ body.
Proof.
  intros Hq Hr Hne. unfold strip.
  change (lstrip (String q m ++ body))
    with (if is_space q then lstrip (m ++ body) else String q m ++ body).
  rewrite Hq, rstrip_append; rewrite Hr; [reflexivity | exact Hne].
Qed.

Lemma marker_line_reads (q : ascii) (m body : string) :
  is_space q = false -> rstrip body = body -> body <> "" ->
  contains (String q m) (" " ++ body) = false ->
  strip (String q m ++ " " ++ body) = String q m ++ " " ++ body
  /\ startswith (String q m ++ " " ++ body) (String q m) = true
  /\ after_marker (String q m ++ " " ++ body) (String q m) = Return (" " ++ body).
Proof.
  intros Hq Hr Hne Hc. split; [|split].
  - rewrite <- append_assoc. apply marker_line_stripped; assumption.
  - apply prefix_append.
  - now apply after_marker_at_start.
Qed.

Lemma colon_free_marker_free (m body : string) :
  contains ":" body = false -> contains (m ++ ":") (" " ++ body) = false.
Proof.
  intros H. apply contains_shorter.
  change (" " ++ body) with (String " " body).
  rewrite contains_unfold, prefix_char. exact H.
Qed.

Lemma list_body_facts (xs : list string) :
  xs <> [] -> forallb plain_item xs = true ->
  rstrip (join ", " xs) = join ", " xs
  /\ join ", " xs <> ""
  /\ contains ":" (join ", " xs) = false
  /\ contains newline (join ", " xs) = false.
Proof.
  intros Hne H. rewrite forallb_forall in H.
  assert (Hp : forall x, In x xs ->
                 x <> "" /\ strip x = x /\ contains ":" x = false
                 /\ contains newline x = false).
  { intros x Hx. apply plain_text_facts. now apply plain_item_facts, H. }
  destruct (join_rstrip ", " xs Hne) as [H1 H2]; [intros x Hx; split; apply Hp, Hx|].
  repeat split; try assumption.
  - apply (join_free ":"%char); [reflexivity | intros x Hx; apply Hp, Hx].
  - apply (join_free (ascii_of_nat 10)); [reflexivity | intros x Hx; apply Hp, Hx].
Qed.

Lemma concepts_line_reads (parsed : ParsedIntent) (xs : list string) :
  xs <> [] -> forallb plain_item xs = true ->
  parse_line parsed ("CONCEPTS:" ++ " " ++ join ", " xs)
  = Return (set_concepts parsed xs).
Proof.
  intros Hne H. destruct (list_body_facts xs Hne H) as [Hr [Hb [Hc _]]].
  destruct (marker_line_reads "C" "ONCEPTS:" (join ", " xs) eq_refl Hr Hb
              (colon_free_marker_free "CONCEPTS" _ Hc)) as [E1 [E2 E3]].
  unfold parse_line.
  change (String "C" "ONCEPTS:") with "CONCEPTS:" in *.
  rewrite E1, E2, E3. cbn [bind]. now rewrite items_read_back.
Qed.

Lemma entities_line_reads (parsed : ParsedIntent) (xs : list string) :
  xs <> [] -> forallb plain_item xs = true ->
  parse_line parsed ("ENTITIES:" ++ " " ++ join ", " xs)
  = Return (set_entities parsed xs).
Proof.
  intros Hne H. destruct (list_body_facts xs Hne H) as [Hr [Hb [Hc _]]].
  destruct (marker_line_reads "E" "NTITIES:" (join ", " xs) eq_refl Hr Hb
              (colon_free_marker_free "ENTITIES" _ Hc)) as [E1 [E2 E3]].
  unfold parse_line.
  change (String "E" "NTITIES:") with "ENTITIES:" in *.
  rewrite E1.
  replace (startswith ("ENTITIES:" ++ " " ++ join ", " xs) "CONCEPTS:")
    with false by reflexivity.
  rewrite E2, E3. cbn [bind]. now rewrite items_read_back.
Qed.

Lemma filters_line_reads (parsed : ParsedIntent) (xs : list string) :
  xs <> [] -> forallb plain_item xs = true ->
  parse_line parsed ("FILTERS:" ++ " " ++ join ", " xs)
  = Return (set_filters parsed xs).
Proof.
  intros Hne H. destruct (list_body_facts xs Hne H) as [Hr [Hb [Hc _]]].
  destruct (marker_line_reads "F" "ILTERS:" (join ", " xs) eq_refl Hr Hb
              (colon_free_marker_free "FILTERS" _ Hc)) as [E1 [E2 E3]].
  unfold parse_line.
  change (String "F" "ILTERS:") with "FILTERS:" in *.
  rewrite E1.
  replace (startswith ("FILTERS:" ++ " " ++ join ", " xs) "CONCEPTS:")
    with false by reflexivity.
  replace (startswith ("FILTERS:" ++ " " ++ join ", " xs) "ENTITIES:")
    with false by reflexivity.
  rewrite E2, E3. cbn [bind]. now rewrite items_read_back.
Qed.

Lemma spatial_line_reads (parsed : ParsedIntent) (sp : string) :
  plain_text sp = true ->
  parse_line parsed ("SPATIAL:" ++ " " ++ sp)
  = Return (set_spatial_relationships parsed [sp]).
Proof.
  intros H. apply plain_text_facts in H. destruct H as [Hne [Hs [Hc _]]].
  destruct (marker_line_reads "S" "PATIAL:" sp eq_refl (stripped_rstrip _ Hs) Hne
              (colon_free_marker_free "SPATIAL" _ Hc)) as [E1 [E2 E3]].
  unfold parse_line.
  change (String "S" "PATIAL:") with "SPATIAL:" in *.
  rewrite E1.
  replace (startswith ("SPATIAL:" ++ " " ++ sp) "CONCEPTS:") with false by reflexivity.
  replace (startswith ("SPATIAL:" ++ " " ++ sp) "ENTITIES:") with false by reflexivity.
  replace (startswith ("SPATIAL:" ++ " " ++ sp) "FILTERS:") with false by reflexivity.
  rewrite E2, E3. cbn [bind]. now rewrite strip_after_space.
Qed.

Lemma intent_line_reads (parsed : ParsedIntent) (it : string) :
  plain_text it = true ->
  parse_line parsed ("INTENT:" ++ " " ++ it) = Return (set_intent parsed it).
Proof.
  intros H. apply plain_text_facts in H. destruct H as [Hne [Hs [Hc _]]].
  destruct (marker_line_reads "I" "NTENT:" it eq_refl (stripped_rstrip _ Hs) Hne
              (colon_free_marker_free "INTENT" _ Hc)) as [E1 [E2 E3]].
  unfold parse_line.
  change (String "I" "NTENT:") with "INTENT:" in *.
  rewrite E1.
  replace (startswith ("INTENT:" ++ " " ++ it) "CONCEPTS:") with false by reflexivity.
  replace (startswith ("INTENT:" ++ " " ++ it) "ENTITIES:") with false by reflexivity.
  replace (startswith ("INTENT:" ++ " " ++ it) "FILTERS:") with false by reflexivity.
  replace (startswith ("INTENT:" ++ " " ++ it) "SPATIAL:") with false by reflexivity.
  rewrite E2, E3. cbn [bind]. now rewrite strip_after_space.
Qed.

Lemma formatted_response_lines (cs es fs : list string) (sp it : string) :
  cs <> [] -> es <> [] -> fs <> [] ->
  forallb plain_item cs = true -> forallb plain_item es = true ->
  forallb plain_item fs = true ->
  plain_text sp = true -> plain_text it = true ->
  split (formatted_response cs es fs sp it) newline
  = [ "CONCEPTS:" ++ " " ++ join ", " cs;
      "ENTITIES:" ++ " " ++ join ", " es;
      "FILTERS:" ++ " " ++ join ", " fs;
      "SPATIAL:" ++ " " ++ sp;
      "INTENT:" ++ " " ++ it ].
Proof.
  intros Nc Ne Nf Hc He Hf Hs Hi.
  destruct (list_body_facts cs Nc Hc) as [_ [_ [_ Lc]]].
  destruct (list_body_facts es Ne He) as [_ [_ [_ Le]]].
  destruct (list_body_facts fs Nf Hf) as [_ [_ [_ Lf]]].
  apply plain_text_facts in Hs, Hi.
  destruct Hs as [_ [_ [_ Ls]]], Hi as [_ [_ [_ Li]]].
  unfold formatted_response, newline in *.
  rewrite (split_join (ascii_of_nat 10) "").
  - reflexivity.
  - intros y Hy. cbn [In] in Hy.
    destruct Hy as [<- | [<- | [<- | [<- | [<- | []]]]]];
      rewrite contains_char_append;
      match goal with |- (?a || ?b)%bool = false =>
        replace a with false by reflexivity end;
      assumption.
  - reflexivity.
Qed.

(** X10: a response written in the format the prompt asks for is read back
    field by field: non-empty lists of plain items (no surrounding
    whitespace, comma, colon or line break) and a plain spatial relationship
    and intent come out of [_parse_query] as they went in. *)
Theorem formatted_response_round_trip
  (chat : string -> result string) (query : string)
  (cs es fs : list string) (sp it : string) :
  cs <> [] -> es <> [] -> fs <> [] ->
  forallb plain_item cs = true -> forallb plain_item es = true ->
  forallb plain_item fs = true ->
  plain_text sp = true -> plain_text it = true ->
  chat (parse_prompt query) = Return (formatted_response cs es fs sp it) ->
  _parse_query chat query
  = Return {| original_query := query; concepts := cs; entities := es;
              filters := fs; spatial_relationships := [sp]; intent := it |}.
Proof.
  intros Nc Ne Nf Hc He Hf Hs Hi Hchat.
  unfold _parse_query. rewrite Hchat. cbn [bind]. unfold parse_response.
  rewrite (formatted_response_lines cs es fs sp it) by assumption.
  cbn [for_each].
  rewrite (concepts_line_reads _ cs Nc Hc). cbn [bind].
  rewrite (entities_line_reads _ es Ne He). cbn [bind].
  rewrite (filters_line_reads _ fs Nf Hf). cbn [bind].
  rewrite (spatial_line_reads _ sp Hs). cbn [bind].
  rewrite (intent_line_reads _ it Hi). reflexivity.
Qed.

Lemma formatted_response_round_trip_witness :
  _parse_query
    (constant_chat
       (formatted_response ["density"; "land use"] ["parcels"] ["residential only"]
          "near" "Find dense residential parcels near transit"))
    "Where are dense parcels?"
  = Return {| original_query := "Where are dense parcels?";
              concepts := ["density"; "land use"];
              entities := ["parcels"];
              filters := ["residential only"];
              spatial_relationships := ["near"];
              intent := "Find dense residential parcels near transit" |}.
Proof.
  apply (formatted_response_round_trip
           (constant_chat
              (formatted_response ["density"; "land use"] ["parcels"]
                 ["residential only"] "near"
                 "Find dense residential parcels near transit")));
    try discriminate; reflexivity.
Defined.

(* ================================================================== *)
(** * Further properties of the ontology activation *)

Lemma select_term_label_In (g : Graph) (ty uri label : string) :
  In (uri, label) (select_term_label g ty)
  <-> In (uri, RDF_type, onto ++ ty) g /\ In (uri, RDFS_label, label) g.
Proof.
  unfold select_term_label. rewrite in_flat_map. split.
  - intros [[[s1 p1] o1] [H1 H2]].
    destruct (String.eqb p1 RDF_type && String.eqb o1 (onto ++ ty))%bool eqn:E;
      [|destruct H2].
    apply andb_true_iff in E. destruct E as [Ep Eo].
    apply String.eqb_eq in Ep, Eo. subst p1 o1.
    apply in_flat_map in H2. destruct H2 as [[[s2 p2] o2] [H3 H4]].
    destruct (String.eqb s2 s1 && String.eqb p2 RDFS_label)%bool eqn:E2;
      [|destruct H4].
    apply andb_true_iff in E2. destruct E2 as [Es Ep2].
    apply String.eqb_eq in Es, Ep2. subst s2 p2.
    destruct H4 as [[= <- <-] | []]. now split.
  - intros [H1 H2]. exists (uri, RDF_type, onto ++ ty). split; [exact H1|].
    rewrite !String.eqb_refl. cbn [andb]. apply in_flat_map.
    exists (uri, RDFS_label, label). split; [exact H2|].
    rewrite !String.eqb_refl. now left.
Qed.

Lemma select_relation_target_In (g : Graph) (uri relation target : string) :
  In (relation, target) (select_relation_target g uri)
  <-> In (uri, relation, target) g.
Proof.
  unfold select_relation_target. rewrite in_flat_map. split.
  - intros [[[s p] o] [H1 H2]].
    destruct (String.eqb s uri) eqn:E; [|destruct H2].
    apply String.eqb_eq in E. subst s. now destruct H2 as [[= <- <-] | []].
  - intros H. exists (uri, relation, target). split; [exact H|].
    rewrite String.eqb_refl. now left.
Qed.

Lemma fuzzy_match_loop (term : string) (rows : list (string * string))
  (acc : list string) :
  fold_left
    (fun matches (row : string * string) =>
       let label := lower (snd row) in
       if (contains (lower term) label || contains label (lower term))%bool
       then (matches ++ [fst row])%list
       else matches)
    rows acc
  = (acc ++ map fst (filter (fun row => fuzzy_test term (snd row)) rows))%list.
Proof.
  revert acc. induction rows as [|row rows IH]; intros acc; simpl.
  - now rewrite app_nil_r.
  - rewrite IH. unfold fuzzy_test.
    destruct (contains (lower term) (lower (snd row))
              || contains (lower (snd row)) (lower term))%bool; [|reflexivity].
    simpl. now rewrite <- app_assoc.
Qed.

Lemma fuzzy_match_unfold (g : Graph) (term ty : string) :
  _fuzzy_match_ontology_term g term ty
  = map fst (filter (fun row => fuzzy_test term (snd row)) (select_term_label g ty)).
Proof. unfold _fuzzy_match_ontology_term. now rewrite fuzzy_match_loop. Qed.

Lemma fuzzy_match_In (g : Graph) (term ty uri : string) :
  In uri (_fuzzy_match_ontology_term g term ty)
  <-> In (uri, RDF_type, onto ++ ty) g
      /\ exists label, In (uri, RDFS_label, label) g /\ fuzzy_test term label = true.
Proof.
  rewrite fuzzy_match_unfold, in_map_iff. split.
  - intros [[u l] [<- H]]. apply filter_In in H. destruct H as [H Ht].
    apply select_term_label_In in H. destruct H as [H1 H2].
    split; [exact H1|]. now exists l.
  - intros [H1 [l [H2 Ht]]]. exists (uri, l). split; [reflexivity|].
    apply filter_In. split; [|exact Ht]. now apply select_term_label_In.
Qed.

Lemma activate_unfold (g : Graph) (pq : ParsedIntent) :
  _activate_ontology g pq
  = {| relevant_concepts :=
         flat_map (fun c => _fuzzy_match_ontology_term g c "PlanningConcept")
           (concepts pq);
       relevant_entities :=
         flat_map (fun e => _fuzzy_match_ontology_term g e "UrbanEntity")
           (entities pq);
       relevant_methods :=
         fold_left method_row_step
           (flat_map (select_method g)
              (flat_map (fun e => _fuzzy_match_ontology_term g e "UrbanEntity")
                 (entities pq)))
           [];
       relationships :=
         flat_map (relations_of g)
           (flat_map (fun c => _fuzzy_match_ontology_term g c "PlanningConcept")
              (concepts pq)) |}.
Proof.
  unfold _activate_ontology.
  rewrite entity_match_loop, concept_match_loop.
  cbn [relevant_concepts relevant_entities relevant_methods relationships app].
  now rewrite relationship_loop, method_loop.
Qed.

(** X11: the fuzzy match returns exactly the nodes of the requested type
    that have a label the term occurs in, or a label that occurs in the
    term, case ignored. *)
Theorem fuzzy_match_sound_and_complete (g : Graph) (term ty uri : string) :
  In uri (_fuzzy_match_ontology_term g term ty)
  <-> In (uri, RDF_type, onto ++ ty) g
      /\ exists label,
           In (uri, RDFS_label, label) g
           /\ (contains (lower term) (lower label)
               || contains (lower label) (lower term))%bool = true.
Proof. apply fuzzy_match_In. Qed.

(** X12: an empty concept activates every labelled planning concept of the
    ontology, and a node whose label is empty is activated by every
    concept. *)
Theorem empty_term_activates_every_node (g : Graph) (pq : ParsedIntent)
  (uri label : string) :
  In (uri, RDF_type, onto ++ "PlanningConcept") g ->
  In (uri, RDFS_label, label) g ->
  (In "" (concepts pq) \/ (label = "" /\ concepts pq <> [])) ->
  In uri (relevant_concepts (_activate_ontology g pq)).
Proof.
  intros Ht Hl H. rewrite activate_unfold. cbn [relevant_concepts].
  apply in_flat_map.
  destruct H as [H | [-> Hne]].
  - exists "". split; [exact H|]. apply fuzzy_match_In. split; [exact Ht|].
    exists label. split; [exact Hl|]. unfold fuzzy_test. simpl lower.
    now rewrite contains_empty.
  - destruct (concepts pq) as [|c cs]; [contradiction|].
    exists c. split; [now left|]. apply fuzzy_match_In. split; [exact Ht|].
    exists "". split; [exact Hl|]. unfold fuzzy_test. simpl lower.
    rewrite contains_empty. apply orb_true_r.
Qed.

Lemma empty_term_activates_every_node_witness :
  In (onto ++ "Density")
     (relevant_concepts
        (_activate_ontology sample_ontology
           (set_concepts sample_intent [""]))).
Proof.
  apply (empty_term_activates_every_node sample_ontology
           (set_concepts sample_intent [""]) (onto ++ "Density") "Density").
  - left. reflexivity.
  - right. left. reflexivity.
  - left. left. reflexivity.
Defined.

(** X13: the relationships are exactly the triples of the ontology whose
    subject is an activated concept. *)
Theorem relationships_are_triples_of_concepts (g : Graph) (pq : ParsedIntent)
  (r : Relationship) :
  In r (relationships (_activate_ontology g pq))
  <-> In (subject r) (relevant_concepts (_activate_ontology g pq))
      /\ In (subject r, predicate r, object r) g.
Proof.
  rewrite activate_unfold. cbn [relationships relevant_concepts].
  rewrite in_flat_map. unfold relations_of. split.
  - intros [uri [Hu Hr]]. apply in_map_iff in Hr.
    destruct Hr as [[p o] [<- Hrow]]. simpl.
    split; [exact Hu | now apply select_relation_target_In].
  - intros [Hu Ht]. exists (subject r). split; [exact Hu|].
    apply in_map_iff. exists (predicate r, object r).
    split; [now destruct r | now apply select_relation_target_In].
Qed.

(** X14: without concepts and entities the activated context is empty; and
    more generally no matched concept means no relationship, no matched
    entity means no method. *)
Theorem nothing_matched_nothing_activated (g : Graph) (pq : ParsedIntent) :
  (concepts pq = [] -> entities pq = [] ->
     _activate_ontology g pq = empty_context)
  /\ (relevant_concepts (_activate_ontology g pq) = [] ->
        relationships (_activate_ontology g pq) = [])
  /\ (relevant_entities (_activate_ontology g pq) = [] ->
        relevant_methods (_activate_ontology g pq) = []).
Proof.
  rewrite activate_unfold.
  cbn [relevant_concepts relevant_entities relevant_methods relationships].
  split; [|split].
  - intros -> ->. reflexivity.
  - intros ->. reflexivity.
  - intros ->. reflexivity.
Qed.

Lemma last_split_go (q : ascii) (p name cur : string) :
  contains (String q "") name = false ->
  last (split_go (String q "") 0 cur (p ++ String q name)) "" = name.
Proof.
  intros H. revert cur. induction p as [|c p IH]; intros cur.
  - change ("" ++ String q name) with (String q name).
    rewrite split_go_scan, prefix_char.
    destruct (ascii_dec q q); [|congruence].
    cbn [String.length Nat.pred]. rewrite (split_go_absent _ name "" H).
    reflexivity.
  - change (String c p ++ String q name) with (String c (p ++ String q name)).
    rewrite split_go_scan.
    destruct (String.prefix (String q "") (String c (p ++ String q name))).
    + cbn [String.length Nat.pred].
      specialize (IH "").
      destruct (split_go (String q "") 0 "" (p ++ String q name)) as [|x l] eqn:E;
        [now apply split_go_nonempty in E|].
      exact IH.
    + apply IH.
Qed.

(** X15: the local name of a method is what follows the last [#] of its
    URI, and the whole URI when it holds no [#]. *)
Theorem local_name_is_fragment (ns name : string) :
  contains "#" name = false ->
  local_name (ns ++ "#" ++ name) = name /\ local_name name = name.
Proof.
  intros H. unfold local_name, split. split.
  - apply (last_split_go "#"%char ns name "" H).
  - now rewrite (split_go_absent "#" name "" H).
Qed.

Lemma local_name_is_fragment_witness :
  local_name (onto ++ "OverlayAnalysis") = "OverlayAnalysis".
Proof.
  exact (proj1 (local_name_is_fragment "http://urbanplanning.org/ontology"
                  "OverlayAnalysis" eq_refl)).
Defined.

(* ================================================================== *)
(** * Further properties of the specification and of the pipeline *)


Lemma assemble_dict (now original_query : string) (parsed : ParsedIntent)
  (ctx : ActivatedContext) (relevant_data : list RankedDataset)
  (items : list (string * json)) :
  assemble now original_query parsed ctx relevant_data (JDict items)
  = Return
      {| timestamp := now;
         query := original_query;
         parsed_query := parsed;
         ontology_context :=
           {| summary_concepts := relevant_concepts ctx;
              summary_entities := relevant_entities ctx;
              summary_methods := relevant_methods ctx |};
         required_data := map required_entry (firstn 10 relevant_data);
         analysis_workflow := get (lookup "steps" items) (JList []);
         sufficiency_check :=
           {| can_complete :=
                eq_str (get (lookup "data_sufficiency" items) JNull) "sufficient";
              status := get (lookup "data_sufficiency" items) (JStr "unknown");
              missing_data := get (lookup "missing_data" items) (JList []);
              alternatives := get (lookup "alternatives" items) (JStr "") |} |}.
Proof. reflexivity. Qed.

Lemma assemble_not_dict (now original_query : string) (parsed : ParsedIntent)
  (ctx : ActivatedContext) (relevant_data : list RankedDataset) (w : json) :
  is_dict w = false ->
  assemble now original_query parsed ctx relevant_data w = Raise AttributeError.
Proof. destruct w; try reflexivity. discriminate. Qed.

Lemma synthesize_total (chat : string -> result string)
  (json_loads : string -> result json) (prompt : string) :
  exists w, synthesize_workflow chat json_loads prompt = Return w.
Proof.
  unfold synthesize_workflow, try_except.
  match goal with |- exists w, match ?body with _ => _ end = _ =>
    destruct body end; eauto.
Qed.

(** X17: [_generate_analysis_spec] returns a specification exactly when the
    synthesized workflow is an object; when the decoder yields any other
    value (a list, a string, a number, null) the function raises
    [AttributeError], outside the [try]. *)
Theorem non_object_workflow_raises
  (chat : string -> result string) (json_loads : string -> result json)
  (json_dumps : list AvailableDataset -> string) (now : string)
  (original_query : string) (parsed : ParsedIntent) (ctx : ActivatedContext)
  (relevant_data : list RankedDataset) (w : json) :
  synthesize_workflow chat json_loads
    (workflow_prompt json_dumps original_query parsed ctx relevant_data)
  = Return w ->
  (is_dict w = true ->
     exists spec,
       _generate_analysis_spec chat json_loads json_dumps now original_query
         parsed ctx relevant_data
       = Return spec)
  /\ (is_dict w = false ->
        _generate_analysis_spec chat json_loads json_dumps now original_query
          parsed ctx relevant_data
        = Raise AttributeError).
Proof.
  intros H. unfold _generate_analysis_spec. rewrite H. cbn [bind]. split.
  - destruct w; try discriminate. intros _. rewrite assemble_dict. eauto.
  - apply assemble_not_dict.
Qed.

Lemma non_object_workflow_raises_witness :
  _generate_analysis_spec (constant_chat "[]") list_loads sample_dumps
    "2024-01-01T00:00:00" "Find parks" (initial_parsed "Find parks")
    empty_context []
  = Raise AttributeError.
Proof.
  exact (proj2 (non_object_workflow_raises (constant_chat "[]") list_loads
                  sample_dumps "2024-01-01T00:00:00" "Find parks"
                  (initial_parsed "Find parks") empty_context [] (JList [])
                  eq_refl)
           eq_refl).
Defined.

(** X18: when the generation call raises, or the decoder rejects the
    extracted text, the specification is still returned: it keeps the query,
    the parsed intent, the ontology summary and the required data, has an
    empty workflow, and reports [can_complete = false], status [unknown], no
    missing data and the note that manual workflow design is needed. *)
Theorem failed_synthesis_still_yields_specification
  (chat : string -> result string) (json_loads : string -> result json)
  (json_dumps : list AvailableDataset -> string) (now : string)
  (original_query : string) (parsed : ParsedIntent) (ctx : ActivatedContext)
  (relevant_data : list RankedDataset) :
  ((exists e,
      chat (workflow_prompt json_dumps original_query parsed ctx relevant_data)
      = Raise e)
   \/ (exists response payload e,
         chat (workflow_prompt json_dumps original_query parsed ctx relevant_data)
         = Return response
         /\ extract_json (strip response) = Return payload
         /\ json_loads payload = Raise e)) ->
  _generate_analysis_spec chat json_loads json_dumps now original_query parsed
    ctx relevant_data
  = Return
      {| timestamp := now;
         query := original_query;
         parsed_query := parsed;
         ontology_context :=
           {| summary_concepts := relevant_concepts ctx;
              summary_entities := relevant_entities ctx;
              summary_methods := relevant_methods ctx |};
         required_data := map required_entry (firstn 10 relevant_data);
         analysis_workflow := JList [];
         sufficiency_check := fallback_check |}.
Proof.
  intros H.
  assert (E : synthesize_workflow chat json_loads
                (workflow_prompt json_dumps original_query parsed ctx relevant_data)
              = Return fallback_workflow).
  { unfold synthesize_workflow.
    destruct H as [[e ->] | [response [payload [e [-> [Hp Hl]]]]]];
      [reflexivity|].
    cbn [bind]. rewrite Hp. cbn [bind]. now rewrite Hl. }
  unfold _generate_analysis_spec. rewrite E. reflexivity.
Qed.

Lemma failed_synthesis_still_yields_specification_witness :
  exists spec,
    _generate_analysis_spec (failing_chat (ClientError "timeout")) sample_loads
      sample_dumps "2024-01-01T00:00:00" "Find parks" (initial_parsed "Find parks")
      empty_context []
    = Return spec
    /\ sufficiency_check spec = fallback_check.
Proof.
  eexists. split.
  - apply (failed_synthesis_still_yields_specification
             (failing_chat (ClientError "timeout")) sample_loads sample_dumps).
    left. exists (ClientError "timeout"). reflexivity.
  - reflexivity.
Defined.

(** X19: in every specification that is returned, [can_complete] is true
    exactly when the reported status is the string [sufficient]; a status of
    [unknown], reported or defaulted, never comes with [can_complete]. *)
Theorem can_complete_agrees_with_status
  (chat : string -> result string) (json_loads : string -> result json)
  (json_dumps : list AvailableDataset -> string) (now : string)
  (original_query : string) (parsed : ParsedIntent) (ctx : ActivatedContext)
  (relevant_data : list RankedDataset) (spec : AnalysisSpecification) :
  _generate_analysis_spec chat json_loads json_dumps now original_query parsed
    ctx relevant_data
  = Return spec ->
  can_complete (sufficiency_check spec)
  = eq_str (status (sufficiency_check spec)) "sufficient"
  /\ (can_complete (sufficiency_check spec) = true
      <-> status (sufficiency_check spec) = JStr "sufficient").
Proof.
  intros H. unfold _generate_analysis_spec in H.
  destruct (synthesize_workflow chat json_loads _) as [w | e]; [|discriminate H].
  cbn [bind] in H. destruct w as [| | | | | |items]; try discriminate H.
  rewrite assemble_dict in H. injection H as <-.
  cbn [sufficiency_check can_complete status].
  assert (E : eq_str (get (lookup "data_sufficiency" items) JNull) "sufficient"
              = eq_str (get (lookup "data_sufficiency" items) (JStr "unknown"))
                  "sufficient").
  { destruct (lookup "data_sufficiency" items); reflexivity. }
  split; [exact E|]. rewrite E.
  destruct (get (lookup "data_sufficiency" items) (JStr "unknown")); simpl;
    try (split; discriminate).
  rewrite String.eqb_eq. split; [now intros -> | now intros [= ->]].
Qed.

Lemma can_complete_agrees_with_status_witness :
  exists spec,
    _generate_analysis_spec (constant_chat "{}") sample_loads sample_dumps
      "2024-01-01T00:00:00" "Find parks" (initial_parsed "Find parks")
      empty_context []
    = Return spec
    /\ can_complete (sufficiency_check spec) = false
    /\ status (sufficiency_check spec) = JStr "unknown".
Proof.
  eexists. split; [reflexivity|].
  pose proof (can_complete_agrees_with_status (constant_chat "{}") sample_loads
                sample_dumps "2024-01-01T00:00:00" "Find parks"
                (initial_parsed "Find parks") empty_context [] _ eq_refl) as H.
  split; [exact (proj1 H) | reflexivity].
Defined.

Lemma parse_query_unavailable (chat : string -> result string) (query : string) :
  unavailable chat -> _parse_query chat query = Return (degraded_parsed query).
Proof.
  intros H. unfold _parse_query. destruct (H (parse_prompt query)) as [e ->].
  reflexivity.
Qed.

Lemma synthesize_unavailable (chat : string -> result string)
  (json_loads : string -> result json) (prompt : string) :
  unavailable chat ->
  synthesize_workflow chat json_loads prompt = Return fallback_workflow.
Proof.
  intros H. unfold synthesize_workflow. destruct (H prompt) as [e ->].
  reflexivity.
Qed.

(** X20: with the generation service down for both calls, [process_query]
    still returns a specification once the write succeeds: the intent is the
    raw query with no concepts or entities, so nothing is activated and no
    dataset is required, the workflow is empty and the sufficiency check is
    the fallback. *)
Theorem unavailable_service_gives_empty_specification
  (chat : string -> result string) (json_loads : string -> result json)
  (json_dumps : list AvailableDataset -> string) (now : string)
  (kb : list Dataset) (g : Graph)
  (save : string -> AnalysisSpecification -> result unit)
  (query output_file : string) :
  unavailable chat ->
  (forall spec, save output_file spec = Return tt) ->
  process_query chat json_loads json_dumps now kb g save query output_file
  = Return
      {| timestamp := now;
         query := query;
         parsed_query := degraded_parsed query;
         ontology_context :=
           {| summary_concepts := []; summary_entities := [];
              summary_methods := [] |};
         required_data := [];
         analysis_workflow := JList [];
         sufficiency_check := fallback_check |}.
Proof.
  intros Hdown Hsave. unfold process_query.
  rewrite (parse_query_unavailable chat query Hdown). cbn [bind].
  rewrite (search_without_terms kb (degraded_parsed query) eq_refl eq_refl).
  unfold _generate_analysis_spec.
  rewrite (synthesize_unavailable chat json_loads _ Hdown). cbn [bind].
  unfold fallback_workflow. rewrite assemble_dict. cbn [bind].
  rewrite Hsave. reflexivity.
Qed.

Lemma unavailable_service_gives_empty_specification_witness :
  exists spec,
    process_query (failing_chat (ClientError "connection refused")) sample_loads
      sample_dumps "2024-01-01T00:00:00" [parcels_dataset; bare_dataset]
      sample_ontology sample_save "Land use of parcels" "outputs/analysis_spec.json"
    = Return spec
    /\ required_data spec = []
    /\ sufficiency_check spec = fallback_check.
Proof.
  eexists. split.
  - apply (unavailable_service_gives_empty_specification
             (failing_chat (ClientError "connection refused"))).
    + intros prompt. exists (ClientError "connection refused"). reflexivity.
    + intros spec. reflexivity.
  - split; reflexivity.
Defined.







(** X22: [process_query] never passes on an error of the generation client
    or of the decoder.  It raises only [AttributeError], when the decoded
    workflow is not an object, or what the write of the output file raises;
    and it returns whenever the decoder yields objects only and the write
    succeeds. *)
Theorem process_query_failure_modes
  (chat : string -> result string) (json_loads : string -> result json)
  (json_dumps : list AvailableDataset -> string) (now : string)
  (kb : list Dataset) (g : Graph)
  (save : string -> AnalysisSpecification -> result unit)
  (query output_file : string) :
  (forall e,
     process_query chat json_loads json_dumps now kb g save query output_file
     = Raise e ->
     (e = AttributeError
      /\ exists parsed w,
           _parse_query chat query = Return parsed
           /\ synthesize_workflow chat json_loads
                (workflow_prompt json_dumps query parsed
                   (_activate_ontology g parsed)
                   (_search_knowledge_base kb parsed))
              = Return w
           /\ is_dict w = false)
     \/ exists spec, save output_file spec = Raise e)
  /\ ((forall text w, json_loads text = Return w -> is_dict w = true) ->
      (forall spec, save output_file spec = Return tt) ->
      exists spec,
        process_query chat json_loads json_dumps now kb g save query output_file
        = Return spec).
Proof.
  destruct (parse_query_ok chat query) as [parsed [Hp _]].
  unfold process_query. rewrite Hp. cbn [bind].
  unfold _generate_analysis_spec.
  destruct (synthesize_total chat json_loads
              (workflow_prompt json_dumps query parsed (_activate_ontology g parsed)
                 (_search_knowledge_base kb parsed))) as [w Hw].
  rewrite Hw. cbn [bind]. split.
  - intros e H. destruct (is_dict w) eqn:Ed.
    + destruct w; try discriminate Ed. rewrite assemble_dict in H. cbn [bind] in H.
      destruct (save output_file _) as [[] | e'] eqn:Es; [discriminate H|].
      right. injection H as <-. eauto.
    + rewrite (assemble_not_dict _ _ _ _ _ w Ed) in H. injection H as <-.
      left. split; [reflexivity|]. now exists parsed, w.
  - intros Hloads Hsave.
    assert (Ed : is_dict w = true).
    { unfold synthesize_workflow, try_except in Hw.
      destruct (chat _) as [response | e]; cbn [bind] in Hw;
        [|injection Hw as <-; reflexivity].
      destruct (extract_json (strip response)) as [payload | e]; cbn [bind] in Hw;
        [|injection Hw as <-; reflexivity].
      destruct (json_loads payload) as [w' | e] eqn:El;
        [|injection Hw as <-; reflexivity].
      injection Hw as <-. exact (Hloads _ _ El). }
    destruct w; try discriminate Ed. rewrite assemble_dict. cbn [bind].
    rewrite Hsave. cbn [bind]. eauto.
Qed.

Lemma process_query_failure_modes_witness :
  AttributeError = AttributeError
  /\ exists parsed w,
       _parse_query (constant_chat "[]") "Find parks" = Return parsed
       /\ synthesize_workflow (constant_chat "[]") list_loads
            (workflow_prompt sample_dumps "Find parks" parsed
               (_activate_ontology sample_ontology parsed)
               (_search_knowledge_base [parcels_dataset] parsed))
          = Return w
       /\ is_dict w = false.
Proof.
  destruct (proj1 (process_query_failure_modes (constant_chat "[]") list_loads
                     sample_dumps "2024-01-01T00:00:00" [parcels_dataset]
                     sample_ontology sample_save "Find parks" "out.json")
              AttributeError eq_refl) as [H | [spec Hs]].
  - exact H.
  - discriminate Hs.
Defined.

(* ================================================================== *)
(** * The score in closed form *)

(** A loop that contributes [n] points and a reason for every element that
    passes a test. *)
Lemma conditional_loop {X : Type} (test : X -> bool) (n : Z) (reason : X -> string)
  (step : Scoring -> X -> Scoring) :
  (forall st x, step st x = if test x then contribute n (reason x) st else st) ->
  forall l st,
    fold_left step l st
    = (fst st + n * Z.of_nat (length (filter test l)),
       (snd st ++ map reason (filter test l))%list).
Proof.
  intros Hstep l. induction l as [|x l IH]; intros st.
  - simpl. rewrite Z.mul_0_r, Z.add_0_r, app_nil_r. now destruct st.
  - cbn [fold_left filter]. rewrite IH, Hstep.
    destruct (test x); [|reflexivity].
    unfold contribute. cbn [fst snd map length].
    f_equal; [lia | now rewrite <- app_assoc].
Qed.

Lemma score_closed_form_aux (pq : ParsedIntent) (d : Dataset) :
  score_of pq d
  = (2 * Z.of_nat (length (filter (concept_hit d) (map lower (concepts pq))))
     + 2 * Z.of_nat (length (filter (entity_hit d) (map lower (entities pq))))
     + Z.of_nat (length (filter (geometry_hit d) (map lower (entities pq))))
     + Z.of_nat (length (filter (task_hit (map lower (concepts pq))) (task_list d))),
     (map concept_reason
        (filter (concept_hit d) (map lower (concepts pq)))
      ++ map entity_reason
           (filter (entity_hit d) (map lower (entities pq)))
      ++ map geometry_reason
           (filter (geometry_hit d) (map lower (entities pq)))
      ++ map task_reason
           (filter (task_hit (map lower (concepts pq))) (task_list d)))%list).
Proof.
  rewrite score_of_unfold.
  rewrite (conditional_loop (concept_hit d) 2 concept_reason
             (concept_step (lower (domain_text d)) (lower (represents_text d))))
    by reflexivity.
  rewrite (conditional_loop (entity_hit d) 2 entity_reason
             (entity_step (lower (represents_text d))))
    by reflexivity.
  rewrite (conditional_loop (geometry_hit d) 1 geometry_reason
             (geometry_step (lower (geometry_text d)))).
  - rewrite (conditional_loop (task_hit (map lower (concepts pq))) 1 task_reason
               (task_step (map lower (concepts pq))))
      by reflexivity.
    cbn [fst snd app]. f_equal; [lia|]. now rewrite <- !app_assoc.
  - intros st e. unfold geometry_step, geometry_hit.
    destruct ((contains "parcel" e || contains "building" e)
              && contains "polygon" (lower (geometry_text d)))%bool;
      [reflexivity|].
    cbn [orb].
    now destruct ((contains "transit" e || contains "stop" e)
                  && contains "point" (lower (geometry_text d)))%bool.
Qed.

(** X23: the score of a dataset in closed form: two points for every
    concept found in its domain or in what it represents, two for every
    entity found in what it represents, one for every entity whose kind fits
    the geometry (an entity that fits both ways still counts once), one for
    every capable task that holds a concept; the reasons are the reasons of
    these hits, in this order. *)
Theorem score_closed_form (pq : ParsedIntent) (d : Dataset) :
  fst (score_of pq d)
  = 2 * Z.of_nat (length (filter (concept_hit d) (map lower (concepts pq))))
    + 2 * Z.of_nat (length (filter (entity_hit d) (map lower (entities pq))))
    + Z.of_nat (length (filter (geometry_hit d) (map lower (entities pq))))
    + Z.of_nat (length (filter (task_hit (map lower (concepts pq))) (task_list d)))
  /\ snd (score_of pq d)
     = (map concept_reason
          (filter (concept_hit d) (map lower (concepts pq)))
        ++ map entity_reason
             (filter (entity_hit d) (map lower (entities pq)))
        ++ map geometry_reason
             (filter (geometry_hit d) (map lower (entities pq)))
        ++ map task_reason
             (filter (task_hit (map lower (concepts pq))) (task_list d)))%list.
Proof. rewrite score_closed_form_aux. split; reflexivity. Qed.

Lemma filter_map_length {X Y : Type} (f : Y -> bool) (g : X -> Y) (l : list X) :
  length (filter f (map g l)) = length (filter (fun x => f (g x)) l).
Proof.
  induction l as [|x l IH]; [reflexivity|]. simpl.
  destruct (f (g x)); simpl; now rewrite IH.
Qed.

(** X24: the score ignores letter case on both sides: it is the same for
    two intents whose concepts and entities agree up to case, on two datasets
    whose domain, representation, geometry type and task names agree up to
    case. *)
Theorem score_ignores_case (pq pq' : ParsedIntent) (d d' : Dataset) :
  map lower (concepts pq) = map lower (concepts pq') ->
  map lower (entities pq) = map lower (entities pq') ->
  lower (domain_text d) = lower (domain_text d') ->
  lower (represents_text d) = lower (represents_text d') ->
  lower (geometry_text d) = lower (geometry_text d') ->
  map lower (task_list d) = map lower (task_list d') ->
  fst (score_of pq d) = fst (score_of pq' d').
Proof.
  intros Hc He Hd Hr Hg Ht. rewrite !score_closed_form_aux. cbn [fst].
  rewrite <- Hc, <- He.
  assert (E1 : forall l, filter (concept_hit d) l = filter (concept_hit d') l).
  { intros l. apply filter_ext. intros c. unfold concept_hit. now rewrite Hd, Hr. }
  assert (E2 : forall l, filter (entity_hit d) l = filter (entity_hit d') l).
  { intros l. apply filter_ext. intros e. unfold entity_hit. now rewrite Hr. }
  assert (E3 : forall l, filter (geometry_hit d) l = filter (geometry_hit d') l).
  { intros l. apply filter_ext. intros e. unfold geometry_hit. now rewrite Hg. }
  rewrite E1, E2, E3. f_equal.
  set (cs := map lower (concepts pq)).
  set (hit := fun t : string => existsb (fun c => contains c t) cs).
  change (task_hit cs) with (fun t => hit (lower t)).
  rewrite <- !(filter_map_length hit lower).
  now rewrite Ht.
Qed.

Lemma score_ignores_case_witness :
  fst (score_of parcels_intent parcels_dataset)
  = fst (score_of
           (set_entities (set_concepts parcels_intent ["LAND USE"; "Density"])
              ["Parcels"])
           parcels_dataset).
Proof.
  apply score_ignores_case; reflexivity.
Defined.
